(** * socialbook: the request handlers of [core/views.py]

    A shallow embedding of the Django views of the application (feed, like
    toggle, signup, signin, settings, logout, upload) over an explicit
    relational store, and the properties of the like ledger, of signup and of
    the session gate proved about them.

    The store is four tables keyed by primary key.  A view is a function
    from the request and the store to a result (a response or an unhandled
    exception) and the store it leaves behind; every ORM write is committed
    at once (Django's autocommit), so a view that raises keeps the writes it
    made before.  Requests are served one after the other.

    Django itself is not part of the sources.  Its calls are modelled by
    their contract on the store; what the framework does besides (password
    hashing, the normal form of a username and of an email address, the
    reading of a query string as a Post key, form validation, key allocation
    for posts) is a parameter of the views. *)

From stdpp Require Import gmap strings list fin_maps.

Open Scope Z_scope.
Open Scope string_scope.

(** ** Data model *)

(** [django.contrib.auth.models.User]: the columns the views touch.  The
    password column holds the hash, never the clear text. *)
Module User.
Record t := mk { username : string; email : string; password : string }.
End User.

(** Modelled from the spec: [core/models.py] is not part of the sources.
    A Profile refers to its User by key and carries an optional avatar
    (absent = the default placeholder), a bio and a location. *)
Module Profile.
Record t := mk { user : nat; profileimg : option string; bio : string; location : string }.
End Profile.

(** Modelled from the spec: [core/models.py] is not part of the sources.
    A Post has the author's username (a plain string, not a key), an image
    reference, a caption and the like counter.  The specification calls the
    image required; the row holds what the view stores, which is no
    reference at all when the request came without a file.  The counter is a
    Python integer, so the views can drive it below zero. *)
Module Post.
Record t := mk { user : string; image : option string; caption : string; no_of_likes : Z }.
(** [post.no_of_likes = n] *)
Definition set_no_of_likes (n : Z) (p : t) : t := mk (user p) (image p) (caption p) n.
End Post.

(** Modelled from the spec: [core/models.py] is not part of the sources.
    A Like is the pair (post reference, username); the reference holds the
    post identifier as the request sent it, and the row's own primary key is
    the automatic integer one. *)
Module LikePost.
Record t := mk { post_id : string; username : string }.
End LikePost.

(** The store, and the two request-scoped pieces the views write to: the
    session's authenticated user key (what [auth.login] stores) and the
    queue of flash messages.  A Post is kept under its key as the store
    writes it; a request may spell that key in other ways. *)
Record State := mkState {
  users : gmap nat User.t;
  profiles : gmap nat Profile.t;
  posts : gmap string Post.t;
  likes : gmap nat LikePost.t;
  session : option nat;
  messages : list string
}.

Definition set_users (f : gmap nat User.t → gmap nat User.t) (s : State) : State :=
  mkState (f (users s)) (profiles s) (posts s) (likes s) (session s) (messages s).
Definition set_profiles (f : gmap nat Profile.t → gmap nat Profile.t) (s : State) : State :=
  mkState (users s) (f (profiles s)) (posts s) (likes s) (session s) (messages s).
Definition set_posts (f : gmap string Post.t → gmap string Post.t) (s : State) : State :=
  mkState (users s) (profiles s) (f (posts s)) (likes s) (session s) (messages s).
Definition set_likes (f : gmap nat LikePost.t → gmap nat LikePost.t) (s : State) : State :=
  mkState (users s) (profiles s) (posts s) (f (likes s)) (session s) (messages s).
Definition set_session (o : option nat) (s : State) : State :=
  mkState (users s) (profiles s) (posts s) (likes s) o (messages s).
Definition add_message (msg : string) (s : State) : State :=
  mkState (users s) (profiles s) (posts s) (likes s) (session s) (messages s ++ [msg]).

(** ** Requests, responses, exceptions *)

Record HttpRequest := mkRequest {
  method : string;
  path : string;
  GET : gmap string string;
  POST : gmap string string;
  FILES : gmap string string
}.

(** What a template is given.  The bound or unbound [ProfileForm] is kept
    only as a flag: rendering is outside this development. *)
Inductive ContextValue :=
  | CProfile (pk : nat) (p : Profile.t)
  | CPosts (ps : list (string * Post.t))
  | CForm (bound : bool).

Inductive HttpResponse :=
  | Redirect (to : string)
  | RedirectToLogin (login_url next : string)
  | Render (template : string) (context : list (string * ContextValue)).

Inductive Exception :=
  | DoesNotExist (model : string)
  | MultipleObjectsReturned (model : string)
  | MultiValueDictKeyError (key : string)
  | IntegrityError (model : string)
  | AttributeError
  | TypeError
  | ValueError
  | ValidationError.

Inductive Outcome (A : Type) :=
  | Ok (a : A)
  | Raise (e : Exception).
Arguments Ok {A} a.
Arguments Raise {A} e.

(** ** The monad of a view body: state passing with exceptions *)

Definition M (A : Type) : Type := State → Outcome A * State.

Definition ret {A} (a : A) : M A := λ s, (Ok a, s).
Definition raise {A} (e : Exception) : M A := λ s, (Raise e, s).
Definition bind {A B} (m : M A) (k : A → M B) : M B :=
  λ s, match m s with
       | (Ok a, s') => k a s'
       | (Raise e, s') => (Raise e, s')
       end.
Definition gets {A} (f : State → A) : M A := λ s, (Ok (f s), s).
Definition modify (f : State → State) : M unit := λ s, (Ok tt, f s).

(** [try: m except e: h]: only the named exception is caught. *)
Definition try_except {A} (m : M A) (catches : Exception → bool) (h : M A) : M A :=
  λ s, match m s with
       | (Raise e, s') => if catches e then h s' else (Raise e, s')
       | r => r
       end.

Notation "'let*' x ':=' m 'in' k" := (bind m (λ x, k))
  (at level 10, x pattern, m at level 100, k at level 200, only parsing).
Notation "m ';;' k" := (bind m (λ _, k))
  (at level 100, k at level 200, right associativity, only parsing).

(** ** The framework calls the views make

    Each call is modelled by what it does to the store: which rows it
    reads, which row it writes, which exception it raises. *)

(** [dict[key]] on a [QueryDict]: a missing key raises. *)
Definition subscript (d : gmap string string) (key : string) : M string :=
  match d !! key with
  | Some v => ret v
  | None => raise (MultiValueDictKeyError key)
  end.

(** The automatic integer key of a new row: above every key in the table. *)
Definition next_pk {A} (m : gmap nat A) : nat := fresh (dom m).

(** [Model.objects.get(...)] on the rows selected by a filter: exactly one
    row, or one of the two lookup exceptions. *)
Definition get_one {K A} (model : string) (rows : list (K * A)) : M (K * A) :=
  match rows with
  | [] => raise (DoesNotExist model)
  | [r] => ret r
  | _ => raise (MultipleObjectsReturned model)
  end.

(** [QuerySet.first()]: an unordered query set is ordered by primary key,
    so the first row is the one with the least key. *)
Fixpoint least_pk {A} (rows : list (nat * A)) : option (nat * A) :=
  match rows with
  | [] => None
  | r :: rows' =>
      match least_pk rows' with
      | None => Some r
      | Some r' => if decide (r.1 ≤ r'.1)%nat then Some r else Some r'
      end
  end.

Definition first {A} (m : gmap nat A) : option (nat * A) := least_pk (map_to_list m).

(** *** The session *)

(** [request.user], resolved from the session; [None] is the anonymous user. *)
Definition request_user (s : State) : option (nat * User.t) :=
  uid ← session s; u ← users s !! uid; Some (uid, u).

Definition is_authenticated (s : State) : bool := bool_decide (is_Some (request_user s)).

(** [request.user.username]; the anonymous user's username is empty. *)
Definition request_username (s : State) : string :=
  match request_user s with
  | Some (_, u) => User.username u
  | None => ""
  end.

(** [auth.login(request, user)]: the session takes the user's key.  Handed
    [None], Django falls back on [request.user], which for the anonymous
    user has nothing to store. *)
Definition auth_login (user : option (nat * User.t)) : M unit :=
  match user with
  | Some (uid, _) => modify (set_session (Some uid))
  | None => λ s, if is_authenticated s then (Ok tt, s) else (Raise AttributeError, s)
  end.

(** [auth.logout(request)] *)
Definition auth_logout : M unit := modify (set_session None).

(** [messages.info(request, msg)] *)
Definition messages_info (msg : string) : M unit := modify (add_message msg).

(** [@login_required(login_url=...)] *)
Definition login_required (login_url : string)
    (view : HttpRequest → M HttpResponse) : HttpRequest → M HttpResponse :=
  λ request s,
    if is_authenticated s then view request s
    else (Ok (RedirectToLogin login_url (path request)), s).

(** *** Posts *)

(** [instance.save()] of a row that has its key: written under that key. *)
Definition Post_save (pk : string) (p : Post.t) : M unit := modify (set_posts <[pk := p]>).

(** *** Likes *)

Definition like_matches (post_id username : string) (r : nat * LikePost.t) : Prop :=
  LikePost.post_id r.2 = post_id ∧ LikePost.username r.2 = username.

Global Instance like_matches_dec post_id username r : Decision (like_matches post_id username r).
Proof. unfold like_matches. apply _. Defined.

(** [LikePost.objects.filter(post_id=..., username=...)] *)
Definition LikePost_filter (post_id username : string) (s : State) : gmap nat LikePost.t :=
  filter (like_matches post_id username) (likes s).

(** [LikePost.objects.create(...)]: a new row under a new key. *)
Definition LikePost_create (post_id username : string) : M (nat * LikePost.t) :=
  λ s, let pk := next_pk (likes s) in
       let l := LikePost.mk post_id username in
       (Ok (pk, l), set_likes <[pk := l]> s).

Definition LikePost_save (pk : nat) (l : LikePost.t) : M unit := modify (set_likes <[pk := l]>).

(** [instance.delete()]: the row with the instance's key goes. *)
Definition LikePost_delete (pk : nat) : M unit := modify (set_likes (delete pk)).

(** *** Users and profiles *)

Definition user_has_username (username : string) (r : nat * User.t) : Prop :=
  User.username r.2 = username.
Definition user_has_email (email : string) (r : nat * User.t) : Prop :=
  User.email r.2 = email.
Definition profile_of (uid : nat) (r : nat * Profile.t) : Prop :=
  Profile.user r.2 = uid.

Global Instance user_has_username_dec username r : Decision (user_has_username username r).
Proof. unfold user_has_username. apply _. Defined.
Global Instance user_has_email_dec email r : Decision (user_has_email email r).
Proof. unfold user_has_email. apply _. Defined.
Global Instance profile_of_dec uid r : Decision (profile_of uid r).
Proof. unfold profile_of. apply _. Defined.

(** [User.objects.filter(email=...).exists()] and the same on the username *)
Definition User_email_exists (email : string) (s : State) : bool :=
  bool_decide (filter (user_has_email email) (users s) ≠ ∅).
Definition User_username_exists (username : string) (s : State) : bool :=
  bool_decide (filter (user_has_username username) (users s) ≠ ∅).

(** [User.objects.get(username=...)] *)
Definition User_get (username : string) : M (nat * User.t) :=
  λ s, get_one "User" (map_to_list (filter (user_has_username username) (users s))) s.

Definition User_save (pk : nat) (u : User.t) : M unit := modify (set_users <[pk := u]>).

(** [Profile.objects.get(user=...)] *)
Definition Profile_get (uid : nat) : M (nat * Profile.t) :=
  λ s, get_one "Profile" (map_to_list (filter (profile_of uid) (profiles s))) s.

(** Modelled from the spec: [core/models.py] is not part of the sources.
    [Profile.objects.create(user=...)]: a Profile is one-to-one with its
    User, so the store refuses a second Profile of the same user; the other
    columns take their defaults. *)
Definition Profile_create (uid : nat) : M (nat * Profile.t) :=
  λ s, if bool_decide (filter (profile_of uid) (profiles s) ≠ ∅)
       then (Raise (IntegrityError "Profile"), s)
       else let pk := next_pk (profiles s) in
            let p := Profile.mk uid None "" "" in
            (Ok (pk, p), set_profiles <[pk := p]> s).

Definition Profile_save (pk : nat) (p : Profile.t) : M unit := modify (set_profiles <[pk := p]>).

(** ** What the properties are stated with *)

(** The number of Like records of a pair of a post identifier, as the
    request spelled it, and a username. *)
Definition pair_likes (post_id username : string) (s : State) : nat :=
  size (LikePost_filter post_id username s).

(** The number of Profile records of a user. *)
Definition user_profiles (uid : nat) (s : State) : nat :=
  size (filter (profile_of uid) (profiles s)).

(** The number of User records with a username. *)
Definition users_named (username : string) (s : State) : nat :=
  size (filter (user_has_username username) (users s)).

(** No two accounts share a username. *)
Definition usernames_unique (s : State) : Prop :=
  ∀ username, (users_named username s ≤ 1)%nat.

(** A Post as it was uploaded: the author, the image and the caption. *)
Definition same_upload (p p' : Post.t) : Prop :=
  Post.user p' = Post.user p ∧ Post.image p' = Post.image p ∧
  Post.caption p' = Post.caption p.

(** The accounts and the uploads of a store are all in a later one.  *)
Definition grows (s s' : State) : Prop :=
  users s ⊆ users s' ∧
  ∀ post_id p, posts s !! post_id = Some p →
    ∃ p', posts s' !! post_id = Some p' ∧ same_upload p p'.

(** What [signup] may do to the users: nothing, or add one User, under a
    new key, whose username was unregistered. *)
Definition signup_users_post (s s' : State) : Prop :=
  users s' = users s ∨
  ∃ username email hash,
    User_username_exists username s = false ∧
    users s' = <[next_pk (users s) := User.mk username email hash]> (users s).

(** The foreign key of Profile: every Profile refers to a User of the
    store. *)
Definition profiles_refer (s : State) : Prop :=
  map_Forall (λ _ p, is_Some (users s !! Profile.user p)) (profiles s).

Global Instance profiles_refer_dec s : Decision (profiles_refer s).
Proof. unfold profiles_refer. apply _. Defined.

(** The integrity of the accounts: the foreign key, and at most one Profile
    for each user. *)
Definition store_ok (s : State) : Prop :=
  profiles_refer s ∧ ∀ uid, (user_profiles uid s ≤ 1)%nat.

Definition known_user (uid : nat) (s : State) : Prop := is_Some (users s !! uid).

(** The two halves of the store: the like ledger and the accounts. *)
Definition ledger (s : State) : gmap nat LikePost.t * gmap string Post.t := (likes s, posts s).
Definition accounts (s : State) : gmap nat User.t * gmap nat Profile.t := (users s, profiles s).

(** A computation that leaves a part of the state alone, however it ends. *)
Definition keeps {X A} (part : State → X) (m : M A) : Prop :=
  ∀ s, part (m s).2 = part s.

(** Triples for the monad: from a state in [P], the computation ends with a
    value and a state in [Q], or raises in a state in [E]. *)
Definition hoare {A} (P : State → Prop) (m : M A)
    (Q : A → State → Prop) (E : State → Prop) : Prop :=
  ∀ s, P s → match m s with
             | (Ok a, s') => Q a s'
             | (Raise _, s') => E s'
             end.

(** ** The failures of signup, as the specification names them *)

Inductive SignupFailure := PasswordMismatch | DuplicateEmail | DuplicateUsername.

(** The message each failure is shown with. *)
Definition failure_message (f : SignupFailure) : string :=
  match f with
  | PasswordMismatch => "Password Not Matching"
  | DuplicateEmail => "This email already exists"
  | DuplicateUsername => "Username is taken"
  end.

(** ** Fixtures

    Concrete stand-ins for what the views are parametric in, and small
    stores to run the views on. *)

Definition demo_make_password (raw : string) : string := "pbkdf2$" ++ raw.
Definition demo_check_password (raw encoded : string) : bool :=
  bool_decide (encoded = demo_make_password raw).

Definition longest_key {A} (m : gmap string A) : nat :=
  map_fold (λ k _ n, Nat.max (String.length k) n) 0%nat m.
Fixpoint string_of_length (n : nat) : string :=
  match n with
  | O => ""
  | S n => "p" ++ string_of_length n
  end.
Definition demo_new_post_id (m : gmap string Post.t) : string :=
  string_of_length (S (longest_key m)).

(** A validator that keeps the avatar unless a file is sent and rejects a
    location of more than 100 characters; the instance takes the fields
    that are valid, and keeps its location when the one sent is rejected. *)
Definition demo_ProfileForm_is_valid (post files : gmap string string) (instance : Profile.t)
    : bool * (option string * string * string) :=
  let location := default "" (post !! "location") in
  let profileimg := from_option Some (Profile.profileimg instance) (files !! "profileimg") in
  let bio := default "" (post !! "bio") in
  if decide (String.length location ≤ 100)%nat
  then (true, (profileimg, bio, location))
  else (false, (profileimg, bio, Profile.location instance)).

(** Lower case, for the letters of ASCII. *)
Definition lower_char (c : Ascii.ascii) : Ascii.ascii :=
  let n := Ascii.nat_of_ascii c in
  if decide (65 ≤ n ≤ 90)%nat then Ascii.ascii_of_nat (n + 32) else c.
Fixpoint lower (raw : string) : string :=
  match raw with
  | EmptyString => EmptyString
  | String c rest => String (lower_char c) (lower rest)
  end.

(** [raw.rsplit('@', 1)]: the parts before and after the last at sign. *)
Fixpoint rsplit_at (raw : string) : option (string * string) :=
  match raw with
  | EmptyString => None
  | String c rest =>
      match rsplit_at rest with
      | Some (name, domain) => Some (String c name, domain)
      | None => if decide (Ascii.nat_of_ascii c = 64%nat) then Some (EmptyString, rest) else None
      end
  end.

(** The normal form of an address has its domain in lower case; the normal
    form of a username of ASCII letters is the username. *)
Definition demo_normalize_email (email : string) : string :=
  match rsplit_at email with
  | Some (name, domain) => name ++ "@" ++ lower domain
  | None => email
  end.
Definition demo_normalize_username (username : string) : string := username.

(** Post keys that are read without regard to case, as the hexadecimal
    digits of a UUID are: a string of the letter p in either case spells the
    key in lower case, any other string spells no key. *)
Definition demo_to_python (raw : string) : option string :=
  let key := lower raw in
  if decide (key ≠ "" ∧ key = string_of_length (String.length key)) then Some key else None.

Definition alice : User.t := User.mk "alice" "alice@example.org" (demo_make_password "a-secret").
Definition bob : User.t := User.mk "bob" "bob@example.org" (demo_make_password "b-secret").

Definition hello_post : Post.t := Post.mk "alice" (Some "post_images/hello.png") "hello" 0.

(** The store of a new deployment. *)
Definition fresh_state : State := mkState ∅ ∅ ∅ ∅ None [].

(** alice and bob are registered, alice has uploaded one post, bob is
    signed in. *)
Definition demo_state : State :=
  mkState {[ 1%nat := alice; 2%nat := bob ]}
          {[ 1%nat := Profile.mk 1 None "" ""; 2%nat := Profile.mk 2 None "" "" ]}
          {[ "p" := hello_post ]}
          ∅
          (Some 2%nat)
          [].

(** The same store after a drift: two Like records of bob for the post. *)
Definition drifted_state : State :=
  set_likes (λ _, {[ 3%nat := LikePost.mk "p" "bob"; 7%nat := LikePost.mk "p" "bob" ]})
    (set_posts <[ "p" := Post.set_no_of_likes 2 hello_post ]> demo_state).

(** The same store seen by a visitor who is not signed in. *)
Definition anonymous_state : State := set_session None demo_state.

Definition signup_request (username email password password2 : string) : HttpRequest :=
  mkRequest "POST" "/signup" ∅
    {[ "username" := username; "email" := email;
       "password" := password; "password2" := password2 ]} ∅.

Definition upload_request (files : gmap string string) (caption : string) : HttpRequest :=
  mkRequest "POST" "/upload" ∅ {[ "caption" := caption ]} files.

Definition settings_request (method : string) (post : gmap string string) : HttpRequest :=
  mkRequest method "/settings" ∅ post ∅.

Definition logout_request : HttpRequest := mkRequest "GET" "/logout" ∅ ∅ ∅.

Definition index_request : HttpRequest := mkRequest "GET" "/" ∅ ∅ ∅.

Definition signin_request (username password : string) : HttpRequest :=
  mkRequest "POST" "/signin" ∅ {[ "username" := username; "password" := password ]} ∅.

(** The same store before bob has a Profile. *)
Definition no_profile_state : State := set_profiles (delete 2%nat) demo_state.

Definition like_request (post_id : string) : HttpRequest :=
  mkRequest "GET" "/like-post" {[ "post_id" := post_id ]} ∅ ∅.

(** ** Views *)

Section views.

(** The password hasher of the identity service. *)
Context (make_password : string → string) (check_password : string → string → bool).
(** The allocator of Post keys ([core/models.py] is not part of the
    sources; the store hands out a key for each new Post). *)
Context (new_post_id : gmap string Post.t → string).
(** [form.is_valid()] of a [ProfileForm] bound to the submission and the
    instance: whether the submission is valid, and the avatar, bio and
    location of the instance afterwards.  Validation writes the fields it
    accepts into the instance, whether or not the form as a whole is valid. *)
Context (ProfileForm_is_valid :
  gmap string string → gmap string string → Profile.t → bool * (option string * string * string)).
(** The normal forms the user manager stores: of a username (NFKC) and of
    an email address (the domain in lower case). *)
Context (normalize_username normalize_email : string → string).
(** The reading of a query string as a Post key: the key it spells, or
    [None] when it spells none.  Several strings may spell one key. *)
Context (to_python : string → option string).

(** [User.objects.create_user(...)]: an empty username is refused; the row
    holds the username and the address in normal form and the hash of the
    password; the username column is unique. *)
Definition User_create_user (username email password : string) : M (nat * User.t) :=
  λ s, if decide (username = "") then (Raise ValueError, s)
       else
         let email := normalize_email email in
         let username := normalize_username username in
         if User_username_exists username s
         then (Raise (IntegrityError "User"), s)
         else let pk := next_pk (users s) in
              let u := User.mk username email (make_password password) in
              (Ok (pk, u), set_users <[pk := u]> s).

(** [auth.authenticate(username=..., password=...)] *)
Definition authenticate (username password : string) : M (option (nat * User.t)) :=
  λ s, match map_to_list (filter (user_has_username username) (users s)) with
       | [] => (Ok None, s)
       | [r] => (Ok (if check_password password (User.password r.2) then Some r else None), s)
       | _ => (Raise (MultipleObjectsReturned "User"), s)
       end.

(** Modelled from the spec: [core/models.py] is not part of the sources.
    [Post.objects.create(user=..., image=..., caption=...)]: the like
    counter takes its default, 0; the image column stores what it is given,
    nothing included. *)
Definition Post_create (user : string) (image : option string) (caption : string)
    : M (string * Post.t) :=
  λ s, let pk := new_post_id (posts s) in
       match posts s !! pk with
       | Some _ => (Raise (IntegrityError "Post"), s)
       | None =>
           let p := Post.mk user image caption 0 in
           (Ok (pk, p), set_posts <[pk := p]> s)
       end.

(** [Post.objects.get(id=post_id)]: the value is read as a key, and a
    string that spells none is refused ([ValidationError] stands for the
    exception of the key field: a [ValidationError] of a UUID key, a
    [ValueError] of an integer key).  The key is the primary key, so at most
    one row matches.  A missing query parameter ([None]) matches no row. *)
Definition Post_get (post_id : option string) : M (string * Post.t) :=
  λ s, match post_id with
       | None => (Raise (DoesNotExist "Post"), s)
       | Some raw =>
           match to_python raw with
           | None => (Raise ValidationError, s)
           | Some pk =>
               match posts s !! pk with
               | Some p => (Ok (pk, p), s)
               | None => (Raise (DoesNotExist "Post"), s)
               end
           end
       end.

(** The body of [index], under the decorator. *)
Definition index_body (request : HttpRequest) : M HttpResponse :=
  let* username := gets request_username in
  let* user_object := User_get username in
  let* user_profile := Profile_get user_object.1 in
  let* posts := gets (λ s, map_to_list (posts s)) in
  ret (Render "index.html"
         [("user_profile", CProfile user_profile.1 user_profile.2); ("posts", CPosts posts)]).

Definition index : HttpRequest → M HttpResponse := login_required "signin" index_body.


(** The body of [like_post], under the decorator.  The Post is found by
    the key the query string spells and saved under that key; the Like
    records are filtered and created with the query string as it came.  Once
    [Post_get] has returned, the query parameter is present; the branch for
    its absence only makes the match total. *)
Definition like_post_body (request : HttpRequest) : M HttpResponse :=
  let* username := gets request_username in
  let post_id := GET request !! "post_id" in
  let* post := Post_get post_id in
  match post_id with
  | None => raise (DoesNotExist "Post")
  | Some post_id =>
      let* like_filter := gets (λ s, first (LikePost_filter post_id username s)) in
      match like_filter with
      | None =>
          let* new_like := LikePost_create post_id username in
          LikePost_save new_like.1 new_like.2;;
          let post := (post.1, Post.set_no_of_likes (Post.no_of_likes post.2 + 1) post.2) in
          Post_save post.1 post.2;;
          ret (Redirect "/")
      | Some like =>
          LikePost_delete like.1;;
          let post := (post.1, Post.set_no_of_likes (Post.no_of_likes post.2 - 1) post.2) in
          Post_save post.1 post.2;;
          ret (Redirect "/")
      end
  end.

Definition like_post : HttpRequest → M HttpResponse := login_required "signin" like_post_body.


Definition signup (request : HttpRequest) : M HttpResponse :=
  if decide (method request = "POST") then
    let* username := subscript (POST request) "username" in
    let* email := subscript (POST request) "email" in
    let* password := subscript (POST request) "password" in
    let* password2 := subscript (POST request) "password2" in
    if decide (password = password2) then
      let* email_exists := gets (User_email_exists email) in
      if email_exists then
        messages_info "This email already exists";;
        ret (Redirect "signup")
      else
        let* username_exists := gets (User_username_exists username) in
        if username_exists then
          messages_info "Username is taken";;
          ret (Redirect "signup")
        else
          let* user := User_create_user username email password in
          User_save user.1 user.2;;
          let* user_login := authenticate username password in
          auth_login user_login;;
          Profile_create user.1;;
          ret (Redirect "settings")
    else
      messages_info "Password Not Matching";;
      ret (Redirect "signup")
  else
    ret (Render "signup.html" []).

(** A signup that fails with [f]: the message of [f] is queued, the answer
    is the redirect to signup, and the tables and the session are as they
    were. *)
Definition signup_fails (request : HttpRequest) (s : State) (f : SignupFailure) : Prop :=
  ∃ s', signup request s = (Ok (Redirect "signup"), s') ∧
        messages s' = (messages s ++ [failure_message f])%list ∧
        users s' = users s ∧ profiles s' = profiles s ∧
        posts s' = posts s ∧ likes s' = likes s ∧ session s' = session s.

Definition profile (request : HttpRequest) : M HttpResponse :=
  ret (Render "profile.html" []).

Definition signin (request : HttpRequest) : M HttpResponse :=
  if decide (method request = "POST") then
    let* username := subscript (POST request) "username" in
    let* password := subscript (POST request) "password" in
    let* user := authenticate username password in
    match user with
    | Some _ =>
        auth_login user;;
        ret (Redirect "/")
    | None =>
        messages_info "Credentials Invalid";;
        ret (Redirect "/signin")
    end
  else
    ret (Render "signin.html" []).

Definition catches_Profile_DoesNotExist (e : Exception) : bool :=
  match e with
  | DoesNotExist model => bool_decide (model = "Profile")
  | _ => false
  end.

(** The body of [settings], under the decorator.  The form is bound to
    the very instance the template is given, so what [is_valid()] wrote into
    it is what a rejected submission is rendered with; [form.save()] saves
    the instance under its key. *)
Definition settings_body (request : HttpRequest) : M HttpResponse :=
  let* user := gets request_user in
  match user with
  | None => raise TypeError
  | Some (uid, _) =>
      let* user_profile :=
        try_except (Profile_get uid) catches_Profile_DoesNotExist
          (let* user_profile := Profile_create uid in
           Profile_save user_profile.1 user_profile.2;;
           ret user_profile) in
      if decide (method request = "POST") then
        let '(valid, (profileimg, bio, location)) :=
          ProfileForm_is_valid (POST request) (FILES request) user_profile.2 in
        let user_profile :=
          (user_profile.1, Profile.mk (Profile.user user_profile.2) profileimg bio location) in
        if valid then
          Profile_save user_profile.1 user_profile.2;;
          ret (Redirect "settings")
        else
          ret (Render "setting.html"
                 [("user_profile", CProfile user_profile.1 user_profile.2);
                  ("form", CForm true)])
      else
        ret (Render "setting.html"
               [("user_profile", CProfile user_profile.1 user_profile.2);
                ("form", CForm false)])
  end.

Definition settings : HttpRequest → M HttpResponse := login_required "signin" settings_body.

Definition logout (request : HttpRequest) : M HttpResponse :=
  auth_logout;;
  ret (Redirect "signin").

(** The body of [upload], under the decorator. *)
Definition upload_body (request : HttpRequest) : M HttpResponse :=
  if decide (method request = "POST") then
    let* user := gets request_username in
    let image := FILES request !! "image_upload" in
    let* caption := subscript (POST request) "caption" in
    let* new_post := Post_create user image caption in
    Post_save new_post.1 new_post.2;;
    ret (Redirect "/")
  else
    ret (Redirect "/").

Definition upload : HttpRequest → M HttpResponse := login_required "signin" upload_body.

(** The operations of the system, and its sequential executions: a step is
    one request served by one of the views, or the arrival of another
    client, whose session and pending messages are its own. *)
Definition views : list (HttpRequest → M HttpResponse) :=
  [index; like_post; signup; profile; signin; settings; logout; upload].

Inductive step : State → State → Prop :=
  | step_request view request s :
      view ∈ views → step s (view request s).2
  | step_client o msgs s :
      step s (mkState (users s) (profiles s) (posts s) (likes s) o msgs).

Definition reachable : State → State → Prop := rtc step.

(** The store after a sequence of requests, each with the view it is routed
    to. *)
Definition run (trace : list ((HttpRequest → M HttpResponse) * HttpRequest)) (s : State)
    : State :=
  foldl (λ s hit, (hit.1 hit.2 s).2) s trace.

(** The example of the specification, from a new deployment: alice signs
    up and uploads a post with caption hello, bob signs up and likes it (the
    post has the first key handed out). *)
Definition example_trace : list ((HttpRequest → M HttpResponse) * HttpRequest) :=
  [(signup, signup_request "alice" "alice@example.org" "a-secret" "a-secret");
   (upload, upload_request {[ "image_upload" := "post_images/hello.png" ]} "hello");
   (logout, logout_request);
   (signup, signup_request "bob" "bob@example.org" "b-secret" "b-secret");
   (like_post, like_request (new_post_id ∅))].

(** ** The consistency of the like ledger *)

(** The Like records whose post identifier spells the key of a Post, and
    their number. *)
Definition like_of_post (pk : string) (r : nat * LikePost.t) : Prop :=
  to_python (LikePost.post_id r.2) = Some pk.

Global Instance like_of_post_dec pk r : Decision (like_of_post pk r).
Proof. unfold like_of_post. apply _. Defined.

Definition post_likes (pk : string) (s : State) : nat :=
  size (filter (like_of_post pk) (likes s)).

(** The Like records of a user for a Post, under whatever spelling of its
    key. *)
Definition like_of_user_post (pk username : string) (r : nat * LikePost.t) : Prop :=
  like_of_post pk r ∧ LikePost.username r.2 = username.

Global Instance like_of_user_post_dec pk username r : Decision (like_of_user_post pk username r).
Proof. unfold like_of_user_post. apply _. Defined.


(** The consistency of the like ledger: every Like record is the only one
    of its pair of post identifier and user, every counter is the number of
    Like records whose identifier spells the key of its post, and every Like
    record refers to a Post of the store. *)
Definition like_unique (s : State) : Prop :=
  map_Forall (λ _ l, pair_likes (LikePost.post_id l) (LikePost.username l) s = 1%nat) (likes s).
Definition counters_exact (s : State) : Prop :=
  map_Forall (λ pk p, Post.no_of_likes p = Z.of_nat (post_likes pk s)) (posts s).
Definition likes_refer (s : State) : Prop :=
  map_Forall (λ _ l, is_Some (to_python (LikePost.post_id l) ≫= (posts s !!.))) (likes s).
Definition consistent (s : State) : Prop :=
  like_unique s ∧ counters_exact s ∧ likes_refer s.

Global Instance consistent_dec s : Decision (consistent s).
Proof. unfold consistent, like_unique, counters_exact, likes_refer. apply _. Defined.

(** The same consistency, with the uniqueness spelled out over all pairs. *)
Definition ledger_ok (s : State) : Prop :=
  (∀ post_id username, (pair_likes post_id username s ≤ 1)%nat) ∧
  counters_exact s ∧ likes_refer s.

(** ** Lemmas on the ORM model *)

Lemma next_pk_fresh {A} (m : gmap nat A) : m !! next_pk m = None.
Proof.
  apply not_elem_of_dom. unfold next_pk. apply is_fresh.
Qed.

Lemma fresh_above (l : list nat) (k : nat) : k ∈ l → (k < fresh l)%nat.
Proof.
  unfold fresh, infinite_fresh. simpl.
  induction 1 as [k l|k k' l Hin IH]; simpl; lia.
Qed.

(** Keys are handed out in increasing order, so the least key of a query
    set is its oldest row. *)
Lemma next_pk_above {A} (m : gmap nat A) (k : nat) : is_Some (m !! k) → (k < next_pk m)%nat.
Proof.
  intros Hk%elem_of_dom. unfold next_pk, fresh, set_fresh.
  apply fresh_above. by apply elem_of_elements.
Qed.

Lemma least_pk_None {A} (rows : list (nat * A)) : least_pk rows = None ↔ rows = [].
Proof.
  destruct rows as [|r rows]; simpl; [done|].
  destruct (least_pk rows); [case_decide|]; naive_solver.
Qed.

Lemma least_pk_Some {A} (rows : list (nat * A)) r :
  least_pk rows = Some r → r ∈ rows ∧ ∀ r', r' ∈ rows → (r.1 ≤ r'.1)%nat.
Proof.
  revert r. induction rows as [|r0 rows IH]; intros r; simpl; [done|].
  destruct (least_pk rows) as [r1|] eqn:E.
  - destruct (IH r1 eq_refl) as [Hin Hle].
    case_decide; intros [= <-]; split; try (by constructor).
    + intros r' [->|Hr']%elem_of_cons; [lia|]. specialize (Hle _ Hr'). lia.
    + intros r' [->|Hr']%elem_of_cons; [lia|]. by apply Hle.
  - apply least_pk_None in E as ->. intros [= <-]. split; [by constructor|].
    intros r' [->|Hr']%elem_of_cons; [lia|]. by apply elem_of_nil in Hr'.
Qed.

Lemma first_None {A} (m : gmap nat A) : first m = None ↔ m = ∅.
Proof. unfold first. rewrite least_pk_None. apply map_to_list_empty_iff. Qed.

Lemma first_Some {A} (m : gmap nat A) pk x :
  first m = Some (pk, x) →
  m !! pk = Some x ∧ ∀ pk', is_Some (m !! pk') → (pk ≤ pk')%nat.
Proof.
  intros [Hin Hle]%least_pk_Some. split.
  - by apply elem_of_map_to_list.
  - intros pk' [x' Hx']. apply (Hle (pk', x')). by apply elem_of_map_to_list.
Qed.

Lemma first_singleton {A} pk (x : A) : first ({[pk := x]} : gmap nat A) = Some (pk, x).
Proof. unfold first. by rewrite map_to_list_singleton. Qed.

Lemma size_filter_insert_fresh {K A} `{Countable K} (P : K * A → Prop)
    `{!∀ r, Decision (P r)} (m : gmap K A) k x :
  m !! k = None →
  size (filter P (<[k := x]> m)) =
    if decide (P (k, x)) then S (size (filter P m)) else size (filter P m).
Proof.
  intros Hk. case_decide as HP.
  - rewrite map_filter_insert_True by done.
    apply map_size_insert_None. by rewrite map_lookup_filter_None; left.
  - rewrite map_filter_insert_False by done. by rewrite delete_id.
Qed.

Lemma size_filter_delete {K A} `{Countable K} (P : K * A → Prop)
    `{!∀ r, Decision (P r)} (m : gmap K A) k x :
  m !! k = Some x →
  size (filter P m) =
    if decide (P (k, x)) then S (size (filter P (delete k m)))
    else size (filter P (delete k m)).
Proof.
  intros Hk. rewrite <-(insert_delete_id m k x) at 1 by done.
  apply size_filter_insert_fresh, lookup_delete_eq.
Qed.

(** ** The like toggle *)

Lemma authenticated_user s uid u :
  request_user s = Some (uid, u) → is_authenticated s = true.
Proof. intros Hu. unfold is_authenticated. rewrite Hu. by apply bool_decide_eq_true. Qed.

(** One run of [like_post] for a signed-in user on an existing post. *)
Lemma like_post_run request s uid u post_id key post :
  request_user s = Some (uid, u) →
  GET request !! "post_id" = Some post_id →
  to_python post_id = Some key →
  posts s !! key = Some post →
  like_post request s =
    (Ok (Redirect "/"),
     match first (LikePost_filter post_id (User.username u) s) with
     | None =>
         set_posts <[key := Post.set_no_of_likes (Post.no_of_likes post + 1) post]>
           (set_likes <[next_pk (likes s) := LikePost.mk post_id (User.username u)]> s)
     | Some like =>
         set_posts <[key := Post.set_no_of_likes (Post.no_of_likes post - 1) post]>
           (set_likes (delete like.1) s)
     end).
Proof.
  intros Hu Hid Hkey Hpost.
  unfold like_post, login_required. rewrite (authenticated_user _ _ _ Hu).
  unfold like_post_body, bind, gets, request_username, Post_get. rewrite Hu, Hid. simpl.
  rewrite Hkey, Hpost. simpl. destruct (first _) as [like|]; [done|].
  unfold LikePost_create, LikePost_save, Post_save, modify, ret, set_likes, set_posts. simpl.
  by rewrite insert_insert_eq.
Qed.

Lemma pair_likes_first_None post_id username s :
  first (LikePost_filter post_id username s) = None ↔ pair_likes post_id username s = 0%nat.
Proof. unfold pair_likes. by rewrite first_None, map_size_empty_iff. Qed.

Lemma first_like_Some post_id username s pk like :
  first (LikePost_filter post_id username s) = Some (pk, like) →
  likes s !! pk = Some like ∧ like_matches post_id username (pk, like) ∧
  (∀ pk' like', likes s !! pk' = Some like' →
     like_matches post_id username (pk', like') → (pk ≤ pk')%nat).
Proof.
  intros [[Hpk HP]%map_lookup_filter_Some Hleast]%first_Some. split_and!; [done..|].
  intros pk' like' Hpk' HP'. apply Hleast. exists like'.
  by apply map_lookup_filter_Some.
Qed.

Lemma pair_likes_delete post_id username s pk like :
  likes s !! pk = Some like →
  like_matches post_id username (pk, like) →
  S (pair_likes post_id username (set_likes (delete pk) s)) = pair_likes post_id username s.
Proof.
  intros Hpk HP. unfold pair_likes, LikePost_filter. simpl.
  rewrite (size_filter_delete _ (likes s) pk like Hpk). by rewrite decide_True.
Qed.


Lemma set_no_of_likes_undo post :
  Post.set_no_of_likes (Post.no_of_likes post + 1 - 1)
    (Post.set_no_of_likes (Post.no_of_likes post + 1) post) = post.
Proof. destruct post as [user image caption n]. unfold Post.set_no_of_likes. simpl. f_equal. lia. Qed.

(** A like followed by an unlike of a pair that had no Like record: the
    first request adds the Like record and raises the counter, the second
    gives back the very store the two requests started from. *)
Lemma like_then_unlike request s uid u post_id key post :
  request_user s = Some (uid, u) →
  GET request !! "post_id" = Some post_id →
  to_python post_id = Some key →
  posts s !! key = Some post →
  pair_likes post_id (User.username u) s = 0%nat →
  ∃ s1, like_post request s = (Ok (Redirect "/"), s1) ∧
        likes s1 = <[next_pk (likes s) := LikePost.mk post_id (User.username u)]> (likes s) ∧
        pair_likes post_id (User.username u) s1 = 1%nat ∧
        Post.no_of_likes <$> posts s1 !! key = Some (Post.no_of_likes post + 1) ∧
        like_post request s1 = (Ok (Redirect "/"), s).
Proof.
  intros Hu Hid Hkey Hpost Hnone.
  pose proof Hnone as Hfilter. unfold pair_likes in Hfilter. apply map_size_empty_iff in Hfilter.
  apply pair_likes_first_None in Hnone.
  eexists. split; [by eapply like_post_run|]. rewrite Hnone.
  set (pk := next_pk (likes s)). set (like := LikePost.mk post_id (User.username u)).
  assert (LikePost_filter post_id (User.username u)
            (set_posts <[key := Post.set_no_of_likes (Post.no_of_likes post + 1) post]>
               (set_likes <[pk := like]> s)) = {[pk := like]}) as Hone.
  { unfold LikePost_filter in *. simpl. rewrite map_filter_insert_True by done.
    by rewrite Hfilter. }
  split_and!.
  - done.
  - unfold pair_likes. rewrite Hone. apply map_size_singleton.
  - simpl. by rewrite lookup_insert_eq.
  - erewrite like_post_run; [|exact Hu|exact Hid|exact Hkey|simpl; apply lookup_insert_eq].
    rewrite Hone, first_singleton. simpl. f_equal.
    destruct s as [us prs ps ls se ms]. unfold set_posts, set_likes. simpl in *. f_equal.
    + rewrite insert_insert_eq, set_no_of_likes_undo. by apply insert_id.
    + rewrite delete_insert_eq. apply delete_id, next_pk_fresh.
Qed.

(** C2: for a signed-in user and an existing post with no Like record of
    the pair, two like requests in a row both redirect to home.  The first
    (the like) adds one Like record of the pair, under a new key, and raises
    the post's counter by one; the second (the unlike) brings the counter
    back to its value before the first and leaves no Like record of the pair;
    the store as a whole is then the one the two requests started from. *)
Theorem like_unlike_roundtrip request s uid u post_id key post :
  request_user s = Some (uid, u) →
  GET request !! "post_id" = Some post_id →
  to_python post_id = Some key →
  posts s !! key = Some post →
  pair_likes post_id (User.username u) s = 0%nat →
  ∃ s1 s2,
    like_post request s = (Ok (Redirect "/"), s1) ∧
    (∃ pk, likes s !! pk = None ∧
           likes s1 = <[pk := LikePost.mk post_id (User.username u)]> (likes s)) ∧
    pair_likes post_id (User.username u) s1 = 1%nat ∧
    Post.no_of_likes <$> posts s1 !! key = Some (Post.no_of_likes post + 1) ∧
    like_post request s1 = (Ok (Redirect "/"), s2) ∧
    Post.no_of_likes <$> posts s2 !! key = Some (Post.no_of_likes post) ∧
    pair_likes post_id (User.username u) s2 = 0%nat ∧
    s2 = s.
Proof.
  intros Hu Hid Hkey Hpost Hnone.
  destruct (like_then_unlike request s uid u post_id key post)
    as (s1 & H1 & Hlikes & Hone & Hcount & H2); [done..|].
  exists s1, s. split_and!; [done| |done..| |done|done].
  - exists (next_pk (likes s)). split; [apply next_pk_fresh|done].
  - by rewrite Hpost.
Qed.

(** C6: a like request of a signed-in user whose post identifier names no
    Post ends in an unhandled exception of the lookup, not in a response, and
    the store is as it was.  The exception is [Post.DoesNotExist] when the
    identifier is missing from the request or spells a key that no Post has,
    and the refusal of the key field when the identifier spells no key at
    all. *)
Theorem like_post_missing_post request s uid u :
  request_user s = Some (uid, u) →
  (GET request !! "post_id" ≫= to_python) ≫= (posts s !!.) = None →
  (∃ e, like_post request s = (Raise e, s)) ∧
  (GET request !! "post_id" = None →
     like_post request s = (Raise (DoesNotExist "Post"), s)) ∧
  (∀ post_id, GET request !! "post_id" = Some post_id → to_python post_id = None →
     like_post request s = (Raise ValidationError, s)) ∧
  (∀ post_id key, GET request !! "post_id" = Some post_id → to_python post_id = Some key →
     like_post request s = (Raise (DoesNotExist "Post"), s)).
Proof.
  intros Hu Hnone.
  unfold like_post, login_required. rewrite (authenticated_user _ _ _ Hu).
  unfold like_post_body, bind, gets, Post_get. simpl.
  destruct (GET request !! "post_id") as [post_id|]; simpl in *.
  - destruct (to_python post_id) as [key|] eqn:Hkey; simpl in *.
    + rewrite Hnone. split_and!; [by eexists|(intros; by simplify_eq)..].
    + split_and!; [by eexists|(intros; by simplify_eq)..].
  - split_and!; [by eexists|(intros; by simplify_eq)..].
Qed.

(** C10: the unlike branch deletes one record only.  When the ledger has
    drifted to two or more Like records of the same pair, one request
    deletes the first of them (the one with the least key) and no other row,
    so one record fewer of the pair remains, and the counter goes down by
    exactly one. *)
Theorem unlike_deletes_one request s uid u post_id key post :
  request_user s = Some (uid, u) →
  GET request !! "post_id" = Some post_id →
  to_python post_id = Some key →
  posts s !! key = Some post →
  (1 < pair_likes post_id (User.username u) s)%nat →
  ∃ pk like s',
    like_post request s = (Ok (Redirect "/"), s') ∧
    likes s !! pk = Some like ∧
    like_matches post_id (User.username u) (pk, like) ∧
    (∀ pk' like', likes s !! pk' = Some like' →
       like_matches post_id (User.username u) (pk', like') → (pk ≤ pk')%nat) ∧
    likes s' = delete pk (likes s) ∧
    S (pair_likes post_id (User.username u) s') = pair_likes post_id (User.username u) s ∧
    (0 < pair_likes post_id (User.username u) s')%nat ∧
    Post.no_of_likes <$> posts s' !! key = Some (Post.no_of_likes post - 1).
Proof.
  intros Hu Hid Hkey Hpost Hmany.
  destruct (first (LikePost_filter post_id (User.username u) s)) as [[pk like]|] eqn:Hfirst.
  - pose proof (first_like_Some _ _ _ _ _ Hfirst) as (Hpk & HP & Hleast).
    pose proof (pair_likes_delete _ _ s pk like Hpk HP) as Hsize.
    exists pk, like. eexists. split; [by eapply like_post_run|]. rewrite Hfirst. simpl.
    split_and!; try done.
    + unfold pair_likes, LikePost_filter in *. simpl in *. lia.
    + by rewrite lookup_insert_eq.
  - apply pair_likes_first_None in Hfirst. lia.
Qed.

(** ** The session gate *)

Lemma anonymous_user s : request_user s = None → is_authenticated s = false.
Proof.
  intros Hu. unfold is_authenticated. rewrite Hu. apply bool_decide_eq_false.
  by intros [? ?].
Qed.

Lemma login_required_anonymous login_url view request s :
  request_user s = None →
  login_required login_url view request s = (Ok (RedirectToLogin login_url (path request)), s).
Proof. intros Hu. unfold login_required. by rewrite (anonymous_user _ Hu). Qed.

(** C8: a request without an authenticated session to any of the gated
    views (home, like, settings, upload) is answered with the redirect to
    the sign-in entry point, and the whole store (users, profiles, posts and
    their counters, likes) is exactly as before. *)
Theorem gated_views_anonymous request s :
  request_user s = None →
  index request s = (Ok (RedirectToLogin "signin" (path request)), s) ∧
  like_post request s = (Ok (RedirectToLogin "signin" (path request)), s) ∧
  settings request s = (Ok (RedirectToLogin "signin" (path request)), s) ∧
  upload request s = (Ok (RedirectToLogin "signin" (path request)), s).
Proof. intros Hu. split_and!; by apply login_required_anonymous. Qed.

(** ** Signup *)

Lemma signup_fields request s username email password password2 :
  method request = "POST" →
  POST request !! "username" = Some username →
  POST request !! "email" = Some email →
  POST request !! "password" = Some password →
  POST request !! "password2" = Some password2 →
  signup request s =
    if decide (password = password2) then
      if User_email_exists email s then
        (Ok (Redirect "signup"), add_message "This email already exists" s)
      else if User_username_exists username s then
        (Ok (Redirect "signup"), add_message "Username is taken" s)
      else
        (let* user := User_create_user username email password in
         User_save user.1 user.2;;
         let* user_login := authenticate username password in
         auth_login user_login;;
         Profile_create user.1;;
         ret (Redirect "settings")) s
    else (Ok (Redirect "signup"), add_message "Password Not Matching" s).
Proof.
  intros Hm Hu He Hp Hp2. unfold signup. rewrite decide_True by done.
  unfold subscript. rewrite Hu, He, Hp, Hp2. unfold bind at 1 2 3 4. simpl.
  case_decide; [|done]. unfold bind at 1, gets at 1.
  destruct (User_email_exists email s); [done|].
  unfold bind at 1, gets at 1. by destruct (User_username_exists username s).
Qed.

(** C5: the checks of a signup submission fail in this order: a password
    that differs from its confirmation is reported first, whatever the email
    and the username; then an email already registered, whatever the
    username; then a username already registered.  Each failure queues its
    message, redirects to signup, creates no User and leaves every table and
    the session as they were. *)
Theorem signup_failure_order request s username email password password2 :
  method request = "POST" →
  POST request !! "username" = Some username →
  POST request !! "email" = Some email →
  POST request !! "password" = Some password →
  POST request !! "password2" = Some password2 →
  (password ≠ password2 → signup_fails request s PasswordMismatch) ∧
  (password = password2 → User_email_exists email s = true →
     signup_fails request s DuplicateEmail) ∧
  (password = password2 → User_email_exists email s = false →
     User_username_exists username s = true →
     signup_fails request s DuplicateUsername).
Proof.
  intros Hm Hu He Hp Hp2. unfold signup_fails.
  rewrite (signup_fields _ _ _ _ _ _ Hm Hu He Hp Hp2). split_and!.
  - intros Hne. rewrite decide_False by done. by eexists.
  - intros Heq Hemail. rewrite decide_True, Hemail by done. by eexists.
  - intros Heq Hemail Hname. rewrite decide_True, Hemail, Hname by done. by eexists.
Qed.

Lemma username_free username s :
  User_username_exists username s = false →
  filter (user_has_username username) (users s) = ∅.
Proof. intros Hfree%bool_decide_eq_false. by apply dec_stable. Qed.

Lemma no_profile_of_new_user s :
  profiles_refer s → filter (profile_of (next_pk (users s))) (profiles s) = ∅.
Proof.
  intros Href. apply map_empty. intros pk. apply map_lookup_filter_None_2.
  destruct (profiles s !! pk) as [p|] eqn:Hpk; [right|by left].
  intros ? [= <-] Hof. unfold profile_of in Hof. simpl in Hof.
  destruct (Href pk p Hpk) as [u Hu]. rewrite Hof, next_pk_fresh in Hu. done.
Qed.

(** C4, as the code has it: a signup submission whose password equals its
    confirmation, whose email and username are not registered and whose
    username is not empty and is in normal form creates exactly one User
    record (with the username, the address in normal form and the hash of
    the password), signs that user in, creates exactly one Profile record
    owned by it, so that the new user has exactly one Profile, and redirects
    to settings; posts, likes and messages are untouched.  The hasher accepts
    the hash it made of this password, and the store respects the foreign key
    of Profile. *)
Theorem signup_creates_account request s username email password :
  method request = "POST" →
  POST request !! "username" = Some username →
  POST request !! "email" = Some email →
  POST request !! "password" = Some password →
  POST request !! "password2" = Some password →
  User_email_exists email s = false →
  User_username_exists username s = false →
  username ≠ "" →
  normalize_username username = username →
  check_password password (make_password password) = true →
  profiles_refer s →
  ∃ uid pk s',
    signup request s = (Ok (Redirect "settings"), s') ∧
    users s !! uid = None ∧
    users s' =
      <[uid := User.mk username (normalize_email email) (make_password password)]> (users s) ∧
    profiles s !! pk = None ∧
    profiles s' = <[pk := Profile.mk uid None "" ""]> (profiles s) ∧
    user_profiles uid s' = 1%nat ∧
    session s' = Some uid ∧
    request_user s' =
      Some (uid, User.mk username (normalize_email email) (make_password password)) ∧
    posts s' = posts s ∧ likes s' = likes s ∧ messages s' = messages s.
Proof.
  intros Hm Hu He Hp Hp2 Hemail Hname Hfilled Hnormal Hcheck Href.
  exists (next_pk (users s)), (next_pk (profiles s)). eexists. simpl.
  rewrite (signup_fields _ _ _ _ _ _ Hm Hu He Hp Hp2).
  rewrite decide_True, Hemail, Hname by done.
  pose proof (username_free _ _ Hname) as Hfree.
  pose proof (no_profile_of_new_user _ Href) as Hnew.
  unfold bind at 1, User_create_user at 1. rewrite decide_False, Hnormal, Hname by done.
  unfold bind at 1, User_save at 1, modify at 1.
  unfold bind at 1, authenticate at 1. simpl.
  rewrite insert_insert_eq, map_filter_insert_True, Hfree, insert_empty,
    map_to_list_singleton by done.
  simpl. rewrite Hcheck.
  unfold bind at 1, auth_login at 1, modify at 1.
  unfold bind at 1, Profile_create at 1. simpl.
  rewrite bool_decide_eq_false_2 by (by rewrite Hnew; intros []).
  unfold ret. split; [done|].
  split_and!; simpl; rewrite ?insert_insert_eq; try done.
  - apply next_pk_fresh.
  - apply next_pk_fresh.
  - unfold user_profiles. simpl.
    rewrite size_filter_insert_fresh by apply next_pk_fresh.
    rewrite decide_True by done. by rewrite Hnew.
  - unfold request_user. simpl. by rewrite insert_insert_eq, lookup_insert_eq.
Qed.

(** A submission with an empty username passes the checks of the view and
    is refused by the user manager: the request ends in an unhandled
    [ValueError] and nothing is written. *)
Lemma signup_refuses_empty_username request s email password :
  method request = "POST" →
  POST request !! "username" = Some "" →
  POST request !! "email" = Some email →
  POST request !! "password" = Some password →
  POST request !! "password2" = Some password →
  User_email_exists email s = false →
  User_username_exists "" s = false →
  signup request s = (Raise ValueError, s).
Proof.
  intros Hm Hu He Hp Hp2 Hemail Hname.
  rewrite (signup_fields _ _ _ _ _ _ Hm Hu He Hp Hp2).
  by rewrite decide_True, Hemail, Hname by done.
Qed.

(** ** Settings *)

Lemma size_filter_overwrite {K A} `{Countable K} (P : K * A → Prop)
    `{!∀ r, Decision (P r)} (m : gmap K A) k x x' :
  m !! k = Some x →
  (P (k, x) ↔ P (k, x')) →
  size (filter P (<[k := x']> m)) = size (filter P m).
Proof.
  intros Hk HP. rewrite <-insert_delete_eq.
  rewrite size_filter_insert_fresh by apply lookup_delete_eq.
  rewrite (size_filter_delete P m k x Hk).
  destruct (decide (P (k, x))), (decide (P (k, x'))); first [done | tauto].
Qed.

(** One run of [settings] for a signed-in user with at most one Profile. *)
Lemma settings_run request s uid u :
  request_user s = Some (uid, u) →
  (user_profiles uid s ≤ 1)%nat →
  ∃ response s',
    settings request s = (Ok response, s') ∧
    user_profiles uid s' = 1%nat ∧
    (user_profiles uid s = 0%nat →
       ∃ pk p, profiles s !! pk = None ∧ profiles s' !! pk = Some p ∧ Profile.user p = uid) ∧
    users s' = users s ∧ posts s' = posts s ∧ likes s' = likes s ∧ session s' = session s.
Proof.
  intros Hu Hmost.
  unfold settings, login_required. rewrite (authenticated_user _ _ _ Hu).
  unfold settings_body. unfold bind at 1, gets at 1. rewrite Hu.
  unfold bind at 1, try_except, Profile_get. unfold user_profiles in Hmost.
  rewrite <-length_map_to_list in Hmost.
  destruct (map_to_list (filter (profile_of uid) (profiles s)))
    as [|[pk p] [|? ?]] eqn:Hrows; simpl in Hmost; [| |lia].
  - (* no Profile: one is created *)
    apply map_to_list_empty_iff in Hrows.
    assert (user_profiles uid s = 0%nat) as Hzero.
    { unfold user_profiles. rewrite Hrows. apply map_size_empty. }
    pose proof (next_pk_fresh (profiles s)) as Hfresh.
    unfold get_one, raise. simpl.
    unfold bind at 1, Profile_create at 1.
    rewrite bool_decide_eq_false_2 by (by rewrite Hrows; intros []).
    unfold bind at 1, Profile_save at 1, modify at 1, ret at 1. simpl.
    assert (∀ p', Profile.user p' = uid →
              size (filter (profile_of uid) (<[next_pk (profiles s) := p']> (profiles s))) = 1%nat)
      as Hone.
    { intros p' Hp'. rewrite size_filter_insert_fresh by done.
      rewrite decide_True by done. by rewrite Hrows. }
    case_decide; [destruct (ProfileForm_is_valid _ _ _) as [[] [[profileimg bio] location]]|];
      unfold bind, Profile_save, modify, ret; simpl; do 2 eexists;
      (split; [done|]); unfold user_profiles; simpl; rewrite !insert_insert_eq;
      (split_and!; [by apply Hone| |done..]); intros _;
      eexists (next_pk (profiles s)), _; by rewrite lookup_insert_eq.
  - (* one Profile: it is used *)
    assert (profiles s !! pk = Some p ∧ Profile.user p = uid) as [Hpk Hof].
    { apply (map_lookup_filter_Some (profile_of uid)), elem_of_map_to_list.
      rewrite Hrows. by left. }
    assert (user_profiles uid s = 1%nat) as Hone.
    { unfold user_profiles. by rewrite <-length_map_to_list, Hrows. }
    unfold get_one, ret. simpl.
    case_decide; [destruct (ProfileForm_is_valid _ _ _) as [[] [[profileimg bio] location]]|];
      unfold bind, Profile_save, modify, ret; simpl; do 2 eexists;
      (split; [done|]); (split_and!; [|by rewrite Hone|done..]); try done.
    unfold user_profiles. simpl. by rewrite (size_filter_overwrite _ _ pk p).
Qed.

(** With two Profiles or more the lookup itself fails, and nothing is
    written. *)
Lemma settings_many_profiles request s uid u :
  request_user s = Some (uid, u) →
  (1 < user_profiles uid s)%nat →
  settings request s = (Raise (MultipleObjectsReturned "Profile"), s).
Proof.
  intros Hu Hmany.
  unfold settings, login_required. rewrite (authenticated_user _ _ _ Hu).
  unfold settings_body. unfold bind at 1, gets at 1. rewrite Hu.
  unfold bind at 1, try_except, Profile_get. unfold user_profiles in Hmany.
  rewrite <-length_map_to_list in Hmany.
  by destruct (map_to_list (filter (profile_of uid) (profiles s)))
    as [|? [|? ?]]; simpl in Hmany; [lia..|].
Qed.

(** C7: a settings request of a signed-in user, of any method and with
    any form data, never ends in the lookup exception of a missing record.
    When the user has at most one Profile (the store keeps Profile
    one-to-one with User), the request ends in a response; a user who had no
    Profile gets one created under a new key, and afterwards the user has
    exactly one Profile.  Users, posts, likes and the session are
    untouched. *)
Theorem settings_provides_profile request s uid u :
  request_user s = Some (uid, u) →
  (∀ model, (settings request s).1 ≠ Raise (DoesNotExist model)) ∧
  ((user_profiles uid s ≤ 1)%nat →
   ∃ response s',
     settings request s = (Ok response, s') ∧
     user_profiles uid s' = 1%nat ∧
     (user_profiles uid s = 0%nat →
        ∃ pk p, profiles s !! pk = None ∧ profiles s' !! pk = Some p ∧ Profile.user p = uid) ∧
     users s' = users s ∧ posts s' = posts s ∧ likes s' = likes s ∧ session s' = session s).
Proof.
  intros Hu. split; [|by apply (settings_run request s uid u)].
  intros model. destruct (decide (user_profiles uid s ≤ 1)%nat) as [Hmost|Hmany].
  - destruct (settings_run request s uid u Hu Hmost) as (response & s' & -> & _). done.
  - rewrite (settings_many_profiles request s uid u Hu); [done|lia].
Qed.

(** ** Upload *)

(** One run of [upload] for a signed-in user who submits a caption, when
    the key handed out for the new Post is not in use. *)
Lemma upload_run request s uid u caption :
  request_user s = Some (uid, u) →
  method request = "POST" →
  POST request !! "caption" = Some caption →
  posts s !! new_post_id (posts s) = None →
  upload request s =
    (Ok (Redirect "/"),
     set_posts <[new_post_id (posts s) :=
                   Post.mk (User.username u) (FILES request !! "image_upload") caption 0]> s).
Proof.
  intros Hu Hm Hcaption Hfresh.
  unfold upload, login_required. rewrite (authenticated_user _ _ _ Hu).
  unfold upload_body. rewrite decide_True by done.
  unfold bind at 1, gets at 1, request_username. rewrite Hu.
  unfold subscript. rewrite Hcaption. unfold bind at 1, ret at 1.
  unfold bind at 1, Post_create. rewrite Hfresh.
  unfold bind, Post_save, modify, ret, set_posts. simpl.
  by rewrite insert_insert_eq.
Qed.

(** In every other case [upload] writes nothing. *)
Lemma upload_cases request s :
  (∃ uid u caption,
     request_user s = Some (uid, u) ∧ method request = "POST" ∧
     POST request !! "caption" = Some caption ∧
     posts s !! new_post_id (posts s) = None) ∨
  (upload request s).2 = s.
Proof.
  destruct (request_user s) as [[uid u]|] eqn:Hu;
    [|right; unfold upload; by rewrite login_required_anonymous].
  destruct (decide (method request = "POST")) as [Hm|Hm];
    [destruct (POST request !! "caption") as [caption|] eqn:Hcaption;
     [destruct (posts s !! new_post_id (posts s)) as [taken|] eqn:Hfresh|]|].
  2: { left. by exists uid, u, caption. }
  all: right; unfold upload, login_required; rewrite (authenticated_user _ _ _ Hu);
    unfold upload_body; rewrite ?decide_True, ?decide_False by done;
    unfold bind, gets, subscript, Post_create, ret, raise;
    rewrite ?Hcaption; simpl; rewrite ?Hfresh; done.
Qed.

(** C9, as the code has it: every Post record that a request to [upload]
    adds to the store is owned by the session's username, carries the
    caption sent and has the like counter 0; its image reference is whatever
    the request carried under [image_upload], which is nothing when no file
    was attached.  And an upload submission of a signed-in user with a
    caption does add one such Post, under the key handed out for it when
    that key is not in use, redirects to home and moves nothing else in the
    store. *)
Theorem upload_creates_post request s :
  (∀ outcome s' pk post,
     upload request s = (outcome, s') →
     posts s !! pk = None →
     posts s' !! pk = Some post →
     Post.user post = request_username s ∧
     Post.image post = FILES request !! "image_upload" ∧
     POST request !! "caption" = Some (Post.caption post) ∧
     Post.no_of_likes post = 0) ∧
  (∀ uid u caption,
     request_user s = Some (uid, u) →
     method request = "POST" →
     POST request !! "caption" = Some caption →
     posts s !! new_post_id (posts s) = None →
     ∃ pk post s',
       upload request s = (Ok (Redirect "/"), s') ∧
       posts s !! pk = None ∧
       posts s' = <[pk := post]> (posts s) ∧
       Post.user post = User.username u ∧
       Post.image post = FILES request !! "image_upload" ∧
       Post.caption post = caption ∧
       Post.no_of_likes post = 0 ∧
       users s' = users s ∧ profiles s' = profiles s ∧ likes s' = likes s ∧
       session s' = session s ∧ messages s' = messages s).
Proof.
  split.
  - intros outcome s' pk post Hrun Hold Hnew.
    destruct (upload_cases request s) as [(uid & u & caption & Hu & Hm & Hcaption & Hfresh)|Hsame].
    + rewrite (upload_run _ _ _ _ _ Hu Hm Hcaption Hfresh) in Hrun.
      injection Hrun as <- <-. simpl in Hnew.
      apply lookup_insert_Some in Hnew as [[_ <-]|[_ Hnew]]; [|congruence].
      unfold request_username. rewrite Hu. by split_and!.
    + rewrite Hrun in Hsame. simpl in Hsame. subst s'. congruence.
  - intros uid u caption Hu Hm Hcaption Hfresh.
    exists (new_post_id (posts s)),
      (Post.mk (User.username u) (FILES request !! "image_upload") caption 0).
    eexists. split; [by eapply upload_run|]. by split_and!.
Qed.

(** ** The invariant of the like ledger *)

Section keeps.
Context {X : Type} (part : State → X).

Lemma keeps_ret {A} (a : A) : keeps part (ret a).
Proof. by intros s. Qed.

Lemma keeps_raise {A} e : keeps part (raise (A := A) e).
Proof. by intros s. Qed.

Lemma keeps_gets {A} (f : State → A) : keeps part (gets f).
Proof. by intros s. Qed.

Lemma keeps_modify (f : State → State) : (∀ s, part (f s) = part s) → keeps part (modify f).
Proof. intros Hf s. apply Hf. Qed.

Lemma keeps_bind {A B} (m : M A) (k : A → M B) :
  keeps part m → (∀ a, keeps part (k a)) → keeps part (bind m k).
Proof.
  intros Hm Hk s. unfold bind. specialize (Hm s).
  destruct (m s) as [[a|e] s1]; simpl in *; [|done]. by rewrite Hk.
Qed.

Lemma keeps_try_except {A} (m h : M A) catches :
  keeps part m → keeps part h → keeps part (try_except m catches h).
Proof.
  intros Hm Hh s. unfold try_except. specialize (Hm s).
  destruct (m s) as [[a|e] s1]; simpl in *; [done|].
  destruct (catches e); [|done]. by rewrite Hh.
Qed.

Lemma keeps_subscript d key : keeps part (subscript d key).
Proof. intros s. unfold subscript. by destruct (d !! key). Qed.

Lemma keeps_get_one {K A} model (rows : list (K * A)) : keeps part (get_one model rows).
Proof. intros s. by destruct rows as [|? [|? ?]]. Qed.

Lemma keeps_User_get username : keeps part (User_get username).
Proof. intros s. apply keeps_get_one. Qed.

Lemma keeps_Profile_get uid : keeps part (Profile_get uid).
Proof. intros s. apply keeps_get_one. Qed.

Lemma keeps_Post_get post_id : keeps part (Post_get post_id).
Proof.
  intros s. unfold Post_get. destruct post_id as [raw|]; [|done].
  destruct (to_python raw) as [key|]; [|done]. by destruct (posts s !! key).
Qed.

Lemma keeps_authenticate username password : keeps part (authenticate username password).
Proof. intros s. unfold authenticate. by destruct (map_to_list _) as [|? [|? ?]]. Qed.

Lemma keeps_auth_login user :
  (∀ o s, part (set_session o s) = part s) → keeps part (auth_login user).
Proof.
  intros Hpart s. destruct user as [[uid u]|]; simpl; [apply Hpart|].
  by destruct (is_authenticated s).
Qed.

Lemma keeps_login_required login_url view request :
  keeps part (view request) → keeps part (login_required login_url view request).
Proof. intros Hview s. unfold login_required. destruct (is_authenticated s); [apply Hview|done]. Qed.

End keeps.

Lemma keeps_ledger_Profile_create uid : keeps ledger (Profile_create uid).
Proof. intros s. unfold Profile_create. by case_bool_decide. Qed.

Lemma keeps_ledger_User_create_user username email password :
  keeps ledger (User_create_user username email password).
Proof.
  intros s. unfold User_create_user. case_decide; [done|].
  by destruct (User_username_exists _ _).
Qed.

Lemma keeps_accounts_LikePost_create post_id username :
  keeps accounts (LikePost_create post_id username).
Proof. by intros s. Qed.

Lemma keeps_accounts_Post_create user image caption :
  keeps accounts (Post_create user image caption).
Proof. intros s. unfold Post_create. by destruct (posts s !! _). Qed.

Create HintDb keeps.
#[local] Hint Resolve keeps_ret keeps_raise keeps_gets keeps_subscript keeps_User_get
  keeps_Profile_get keeps_Post_get keeps_authenticate keeps_ledger_Profile_create
  keeps_ledger_User_create_user keeps_accounts_LikePost_create
  keeps_accounts_Post_create : keeps.

(** A view keeps a part of the state when each call it makes does; the
    writes are [modify] under their names. *)
Ltac solve_keeps :=
  repeat match goal with
    | |- keeps _ (login_required _ _ _) => apply keeps_login_required
    | |- keeps _ (bind _ _) => apply keeps_bind; [|intros ?]
    | |- keeps _ (try_except _ _ _) => apply keeps_try_except
    | |- keeps _ (auth_login _) => by apply keeps_auth_login
    | |- keeps _ (if ?b then _ else _) => destruct b
    | |- keeps _ (match ?x with _ => _ end) => destruct x
    | |- keeps _ _ => solve [auto with keeps]
    | |- keeps _ _ => by apply keeps_modify
    end.

Lemma keeps_ledger_index request : keeps ledger (index request).
Proof. unfold index, index_body. solve_keeps. Qed.

Lemma keeps_ledger_signup request : keeps ledger (signup request).
Proof. unfold signup. solve_keeps. Qed.

Lemma keeps_ledger_profile request : keeps ledger (profile request).
Proof. unfold profile. solve_keeps. Qed.

Lemma keeps_ledger_signin request : keeps ledger (signin request).
Proof. unfold signin. solve_keeps. Qed.

Lemma keeps_ledger_settings request : keeps ledger (settings request).
Proof. unfold settings, settings_body. solve_keeps. Qed.

Lemma keeps_ledger_logout request : keeps ledger (logout request).
Proof. unfold logout. solve_keeps. Qed.

Lemma keeps_accounts_index request : keeps accounts (index request).
Proof. unfold index, index_body. solve_keeps. Qed.

Lemma keeps_accounts_like_post request : keeps accounts (like_post request).
Proof. unfold like_post, like_post_body. solve_keeps. Qed.

Lemma keeps_accounts_profile request : keeps accounts (profile request).
Proof. unfold profile. solve_keeps. Qed.

Lemma keeps_accounts_signin request : keeps accounts (signin request).
Proof. unfold signin. solve_keeps. Qed.

Lemma keeps_accounts_logout request : keeps accounts (logout request).
Proof. unfold logout. solve_keeps. Qed.

Lemma keeps_accounts_upload request : keeps accounts (upload request).
Proof. unfold upload, upload_body. solve_keeps. Qed.

Lemma consistent_ledger_ok s : consistent s → ledger_ok s.
Proof.
  intros (Hunique & Hcount & Href). split_and!; [|done..].
  intros post_id username.
  destruct (decide (pair_likes post_id username s = 0%nat)) as [->|Hsome]; [lia|].
  apply map_size_ne_0_lookup in Hsome as (pk & like & [Hpk [Hid Hname]]%map_lookup_filter_Some).
  simpl in Hid, Hname. specialize (Hunique pk like Hpk). simpl in Hunique.
  rewrite Hid, Hname in Hunique. lia.
Qed.

Lemma ledger_ok_same s s' : ledger s' = ledger s → ledger_ok s → ledger_ok s'.
Proof.
  unfold ledger, ledger_ok, counters_exact, likes_refer, pair_likes, post_likes, LikePost_filter.
  by intros [= -> ->].
Qed.

Lemma ledger_ok_keeps {A} (m : M A) s : keeps ledger m → ledger_ok s → ledger_ok (m s).2.
Proof. intros Hm. by apply ledger_ok_same. Qed.

(** A like keeps the ledger consistent. *)
Lemma ledger_ok_liked s post_id key username post :
  to_python post_id = Some key →
  posts s !! key = Some post →
  pair_likes post_id username s = 0%nat →
  ledger_ok s →
  ledger_ok
    (set_posts <[key := Post.set_no_of_likes (Post.no_of_likes post + 1) post]>
       (set_likes <[next_pk (likes s) := LikePost.mk post_id username]> s)).
Proof.
  intros Hkey Hpost Hnone (Hunique & Hcount & Href).
  pose proof (next_pk_fresh (likes s)) as Hfresh.
  split_and!.
  - intros post_id' username'. unfold pair_likes, LikePost_filter in *. simpl.
    rewrite size_filter_insert_fresh by done.
    case_decide as Hmatch; [|apply Hunique].
    destruct Hmatch as [Hid Hname]. simpl in *. subst. by rewrite Hnone.
  - intros key' p Hp. unfold post_likes. simpl in *.
    rewrite size_filter_insert_fresh by done.
    apply lookup_insert_Some in Hp as [[<- <-]|[Hne Hp]].
    + rewrite decide_True by done. simpl.
      rewrite (Hcount _ _ Hpost). unfold post_likes. lia.
    + rewrite decide_False; [by apply Hcount|].
      unfold like_of_post. simpl. congruence.
  - intros pk like Hpk. simpl in *.
    apply lookup_insert_Some in Hpk as [[<- <-]|[Hne Hpk]]; simpl.
    + rewrite Hkey. simpl. by rewrite lookup_insert_eq.
    + destruct (Href pk like Hpk) as [p Hp].
      destruct (to_python (LikePost.post_id like)) as [key'|]; simpl in *; [|done].
      apply lookup_insert_is_Some'. right. by eexists.
Qed.

(** An unlike keeps the ledger consistent. *)
Lemma ledger_ok_unliked s post_id key username post pk like :
  to_python post_id = Some key →
  posts s !! key = Some post →
  likes s !! pk = Some like →
  like_matches post_id username (pk, like) →
  ledger_ok s →
  ledger_ok
    (set_posts <[key := Post.set_no_of_likes (Post.no_of_likes post - 1) post]>
       (set_likes (delete pk) s)).
Proof.
  intros Hkey Hpost Hpk [Hid Hname] (Hunique & Hcount & Href). simpl in Hid, Hname.
  split_and!.
  - intros post_id' username'. specialize (Hunique post_id' username').
    unfold pair_likes, LikePost_filter in *. simpl.
    rewrite (size_filter_delete _ _ pk like Hpk) in Hunique.
    case_decide; lia.
  - intros key' p Hp. unfold post_likes. simpl in *.
    apply lookup_insert_Some in Hp as [[<- <-]|[Hne Hp]].
    + simpl. rewrite (Hcount _ _ Hpost). unfold post_likes.
      rewrite (size_filter_delete _ (likes s) pk like Hpk).
      rewrite decide_True; [lia|]. unfold like_of_post. simpl. congruence.
    + rewrite (Hcount _ _ Hp). unfold post_likes.
      rewrite (size_filter_delete _ (likes s) pk like Hpk).
      rewrite decide_False; [done|]. unfold like_of_post. simpl. congruence.
  - intros pk' like' Hpk'. simpl in *.
    apply lookup_delete_Some in Hpk' as [Hne Hpk'].
    destruct (Href pk' like' Hpk') as [p Hp].
    destruct (to_python (LikePost.post_id like')) as [key'|]; simpl in *; [|done].
    apply lookup_insert_is_Some'. right. by eexists.
Qed.

(** In every other case [like_post] writes nothing. *)
Lemma like_post_cases request s :
  (∃ uid u post_id key post,
     request_user s = Some (uid, u) ∧ GET request !! "post_id" = Some post_id ∧
     to_python post_id = Some key ∧ posts s !! key = Some post) ∨
  (like_post request s).2 = s.
Proof.
  destruct (request_user s) as [[uid u]|] eqn:Hu;
    [|right; unfold like_post; by rewrite login_required_anonymous].
  destruct (GET request !! "post_id") as [post_id|] eqn:Hid;
    [destruct (to_python post_id) as [key|] eqn:Hkey;
     [destruct (posts s !! key) as [post|] eqn:Hpost|]|].
  1: { left. by exists uid, u, post_id, key, post. }
  all: right; unfold like_post, login_required; rewrite (authenticated_user _ _ _ Hu);
    unfold like_post_body, bind, gets, Post_get; rewrite Hid; simpl;
    rewrite ?Hkey; simpl; rewrite ?Hpost; done.
Qed.

Lemma ledger_ok_like_post request s : ledger_ok s → ledger_ok (like_post request s).2.
Proof.
  intros Hok.
  destruct (like_post_cases request s)
    as [(uid & u & post_id & key & post & Hu & Hid & Hkey & Hpost)|Hsame];
    [|by rewrite Hsame].
  rewrite (like_post_run _ _ _ _ _ _ _ Hu Hid Hkey Hpost). simpl.
  destruct (first _) as [[pk like]|] eqn:Hfirst.
  - apply first_like_Some in Hfirst as (Hpk & HP & _). by eapply ledger_ok_unliked.
  - apply pair_likes_first_None in Hfirst. by apply ledger_ok_liked.
Qed.

(** A new Post with counter 0 under an unused key keeps the ledger
    consistent: no Like record refers to a key that names no Post. *)
Lemma ledger_ok_posted s pk post :
  posts s !! pk = None →
  Post.no_of_likes post = 0 →
  ledger_ok s →
  ledger_ok (set_posts <[pk := post]> s).
Proof.
  intros Hfresh Hzero (Hunique & Hcount & Href). split_and!; [done| |].
  - intros key p Hp. simpl in Hp.
    apply lookup_insert_Some in Hp as [[<- <-]|[Hne Hp]]; [|by apply Hcount].
    rewrite Hzero. unfold post_likes. simpl.
    assert (filter (like_of_post pk) (likes s) = ∅) as ->; [|by rewrite map_size_empty].
    apply map_empty. intros k. apply map_lookup_filter_None_2.
    destruct (likes s !! k) as [like|] eqn:Hk; [right|by left].
    intros ? [= <-] Hof. unfold like_of_post in Hof. simpl in Hof.
    destruct (Href k like Hk) as [? Hsome]. rewrite Hof in Hsome. simpl in Hsome. congruence.
  - intros k like Hk. simpl in *.
    destruct (Href k like Hk) as [p Hp].
    destruct (to_python (LikePost.post_id like)) as [key'|]; simpl in *; [|done].
    apply lookup_insert_is_Some'. right. by eexists.
Qed.

Lemma ledger_ok_upload request s : ledger_ok s → ledger_ok (upload request s).2.
Proof.
  intros Hok.
  destruct (upload_cases request s)
    as [(uid & u & caption & Hu & Hm & Hcaption & Hfresh)|Hsame]; [|by rewrite Hsame].
  rewrite (upload_run _ _ _ _ _ Hu Hm Hcaption Hfresh). by apply ledger_ok_posted.
Qed.

Lemma ledger_ok_view view request s :
  view ∈ views → ledger_ok s → ledger_ok (view request s).2.
Proof.
  unfold views. rewrite !elem_of_cons, elem_of_nil.
  intros [->|[->|[->|[->|[->|[->|[->|[->|[]]]]]]]]] Hok.
  - apply ledger_ok_keeps; [apply keeps_ledger_index|done].
  - by apply ledger_ok_like_post.
  - apply ledger_ok_keeps; [apply keeps_ledger_signup|done].
  - apply ledger_ok_keeps; [apply keeps_ledger_profile|done].
  - apply ledger_ok_keeps; [apply keeps_ledger_signin|done].
  - apply ledger_ok_keeps; [apply keeps_ledger_settings|done].
  - apply ledger_ok_keeps; [apply keeps_ledger_logout|done].
  - by apply ledger_ok_upload.
Qed.

Lemma ledger_ok_step s s' : step s s' → ledger_ok s → ledger_ok s'.
Proof.
  intros [view request s0 Hview|o msgs s0] Hok.
  - by apply ledger_ok_view.
  - by apply (ledger_ok_same s0).
Qed.

Lemma run_reachable trace s :
  Forall (λ hit, hit.1 ∈ views) trace → reachable s (run trace s).
Proof.
  intros Hviews. revert s. induction Hviews as [|[view request] trace Hview _ IH]; intros s.
  - apply rtc_refl.
  - eapply rtc_l; [by apply (step_request view request)|apply IH].
Qed.


(** ** The integrity of the accounts is an invariant *)

Lemma hoare_consequence {A} (P P' : State → Prop) (Q Q' : A → State → Prop)
    (E E' : State → Prop) (m : M A) :
  hoare P' m Q' E' →
  (∀ s, P s → P' s) → (∀ a s, Q' a s → Q a s) → (∀ s, E' s → E s) →
  hoare P m Q E.
Proof.
  intros Hm HP HQ HE s Hs. specialize (Hm s (HP s Hs)).
  destruct (m s) as [[a|e] s']; auto.
Qed.

Lemma hoare_ret {A} (a : A) (P : State → Prop) Q E :
  (∀ s, P s → Q a s) → hoare P (ret a) Q E.
Proof. intros HQ s. apply HQ. Qed.

Lemma hoare_bind {A B} P (R : A → State → Prop) Q E (m : M A) (k : A → M B) :
  hoare P m R E → (∀ a, hoare (R a) (k a) Q E) → hoare P (bind m k) Q E.
Proof.
  intros Hm Hk s Hs. unfold bind. specialize (Hm s Hs).
  destruct (m s) as [[a|e] s']; [by apply Hk|done].
Qed.

Lemma hoare_gets {A} (f : State → A) (P : State → Prop) Q E :
  (∀ s, P s → Q (f s) s) → hoare P (gets f) Q E.
Proof. intros HQ s. apply HQ. Qed.

Lemma hoare_try_except {A} P Q E E' (m h : M A) catches :
  hoare P m Q E' → (∀ s, E' s → E s) → hoare E' h Q E →
  hoare P (try_except m catches h) Q E.
Proof.
  intros Hm HE Hh s Hs. unfold try_except. specialize (Hm s Hs).
  destruct (m s) as [[a|e] s']; [done|].
  destruct (catches e); [by apply Hh|by apply HE].
Qed.

(** A computation that keeps the accounts maintains whatever is a property
    of the accounts alone. *)
Lemma hoare_keeps {A} (P E : State → Prop) (m : M A) :
  keeps accounts m →
  (∀ s s', accounts s' = accounts s → P s → P s') →
  (∀ s, P s → E s) →
  hoare P m (λ _, P) E.
Proof.
  intros Hm HP HE s Hs. specialize (Hm s).
  destruct (m s) as [[a|e] s']; [|apply HE]; by apply (HP s).
Qed.

Lemma store_ok_same s s' : accounts s' = accounts s → store_ok s → store_ok s'.
Proof. unfold accounts, store_ok, profiles_refer, user_profiles. by intros [= -> ->]. Qed.

Lemma known_user_same uid s s' : accounts s' = accounts s → known_user uid s → known_user uid s'.
Proof. unfold accounts, known_user. by intros [= -> _]. Qed.

Lemma store_ok_user_written s pk u : store_ok s → store_ok (set_users <[pk := u]> s).
Proof.
  intros [Href Hone]. split; [|done]. intros k p Hk. simpl.
  apply lookup_insert_is_Some'. right. by apply (Href k p).
Qed.

Lemma store_ok_profile_created s uid :
  known_user uid s →
  filter (profile_of uid) (profiles s) = ∅ →
  store_ok s →
  store_ok (set_profiles <[next_pk (profiles s) := Profile.mk uid None "" ""]> s).
Proof.
  intros Hknown Hnone [Href Hone]. pose proof (next_pk_fresh (profiles s)) as Hfresh. split.
  - intros k p Hk. simpl in *.
    apply lookup_insert_Some in Hk as [[_ <-]|[_ Hk]]; [done|by apply (Href k p)].
  - intros uid'. unfold user_profiles. simpl.
    rewrite size_filter_insert_fresh by done.
    case_decide as Hof; [|apply Hone]. unfold profile_of in Hof. simpl in Hof. subst uid'.
    by rewrite Hnone, map_size_empty.
Qed.

Lemma store_ok_profile_written s pk p p' :
  profiles s !! pk = Some p →
  Profile.user p' = Profile.user p →
  store_ok s →
  store_ok (set_profiles <[pk := p']> s).
Proof.
  intros Hpk Huser [Href Hone]. split.
  - intros k q Hk. simpl in *.
    apply lookup_insert_Some in Hk as [[_ <-]|[_ Hk]]; [|by apply (Href k q)].
    rewrite Huser. by apply (Href pk p).
  - intros uid. unfold user_profiles. simpl.
    rewrite (size_filter_overwrite _ _ pk p p') by (by unfold profile_of; simpl; rewrite ?Huser).
    apply Hone.
Qed.

Lemma hoare_User_create_user username email password :
  hoare store_ok (User_create_user username email password)
    (λ user s, store_ok s ∧ known_user user.1 s) store_ok.
Proof.
  intros s Hok. unfold User_create_user. case_decide; [done|].
  destruct (User_username_exists _ s); [done|]. split.
  - by apply store_ok_user_written.
  - unfold known_user. simpl. by rewrite lookup_insert_eq.
Qed.

Lemma hoare_User_save pk u :
  hoare (λ s, store_ok s ∧ known_user pk s) (User_save pk u)
    (λ _ s, store_ok s ∧ known_user pk s) store_ok.
Proof.
  intros s [Hok Hknown]. split; [by apply store_ok_user_written|].
  unfold known_user. simpl. by rewrite lookup_insert_eq.
Qed.

Lemma hoare_Profile_create uid :
  hoare (λ s, store_ok s ∧ known_user uid s) (Profile_create uid)
    (λ user_profile s,
       store_ok s ∧ profiles s !! user_profile.1 = Some user_profile.2 ∧
       Profile.user user_profile.2 = uid)
    store_ok.
Proof.
  intros s [Hok Hknown]. unfold Profile_create. case_bool_decide as Hnone; [done|].
  split_and!; [by apply store_ok_profile_created| |done].
  simpl. by rewrite lookup_insert_eq.
Qed.

Lemma hoare_Profile_get uid (P : State → Prop) :
  hoare P (Profile_get uid)
    (λ user_profile s,
       P s ∧ profiles s !! user_profile.1 = Some user_profile.2 ∧
       Profile.user user_profile.2 = uid)
    P.
Proof.
  intros s Hs. unfold Profile_get.
  destruct (map_to_list _) as [|[pk p] [|? ?]] eqn:Hrows; simpl; [done| |done].
  split; [done|]. apply (map_lookup_filter_Some (profile_of uid)), elem_of_map_to_list.
  rewrite Hrows. by left.
Qed.

Lemma hoare_Profile_save pk p p0 :
  hoare (λ s, store_ok s ∧ profiles s !! pk = Some p0 ∧ Profile.user p = Profile.user p0)
    (Profile_save pk p)
    (λ _ s, store_ok s ∧ profiles s !! pk = Some p)
    store_ok.
Proof.
  intros s (Hok & Hpk & Huser). split; [by eapply store_ok_profile_written|].
  simpl. by rewrite lookup_insert_eq.
Qed.

Lemma store_ok_known_same uid s s' :
  accounts s' = accounts s →
  store_ok s ∧ known_user uid s → store_ok s' ∧ known_user uid s'.
Proof. intros Hsame [Hok Hknown]. split; [by eapply store_ok_same|by eapply known_user_same]. Qed.

(** A call that keeps the accounts, in a sequence that maintains the
    integrity of the accounts (and the presence of a user). *)
Ltac kept_call :=
  eapply hoare_bind;
    [apply hoare_keeps;
       [solve_keeps
       |first [apply store_ok_same | apply store_ok_known_same]
       |first [done | by intros ? [? ?]]]
    |].

Lemma store_ok_signup request : hoare store_ok (signup request) (λ _, store_ok) store_ok.
Proof.
  unfold signup. case_decide; [|by apply hoare_ret].
  kept_call; intros username. kept_call; intros email.
  kept_call; intros password. kept_call; intros password2.
  case_decide; [|kept_call; intros ?; by apply hoare_ret].
  kept_call; intros [|]; [kept_call; intros ?; by apply hoare_ret|].
  kept_call; intros [|]; [kept_call; intros ?; by apply hoare_ret|].
  eapply hoare_bind; [apply hoare_User_create_user|intros user].
  eapply hoare_bind; [apply hoare_User_save|intros ?].
  kept_call; intros user_login. kept_call; intros ?.
  eapply hoare_bind; [apply hoare_Profile_create|intros user_profile].
  apply hoare_ret. by intros s (Hok & _).
Qed.

Lemma request_user_known s uid u : request_user s = Some (uid, u) → known_user uid s.
Proof.
  unfold known_user, request_user. intros Hu.
  destruct (session s) as [uid'|]; [|done]. simpl in Hu.
  destruct (users s !! uid') eqn:Huid; [|done]. simpl in Hu. by simplify_eq.
Qed.

Lemma store_ok_settings request : hoare store_ok (settings request) (λ _, store_ok) store_ok.
Proof.
  intros s Hok. unfold settings, login_required.
  destruct (is_authenticated s); [|done]. revert s Hok. unfold settings_body.
  eapply hoare_bind with (R := λ user s, store_ok s ∧ request_user s = user);
    [by apply hoare_gets|intros [[uid u]|]]; [|by intros s [Hok _]].
  eapply hoare_bind with
    (R := λ user_profile s,
            store_ok s ∧ profiles s !! user_profile.1 = Some user_profile.2).
  - eapply hoare_try_except with (E' := λ s, store_ok s ∧ known_user uid s).
    + eapply hoare_consequence;
        [apply (hoare_Profile_get uid (λ s, store_ok s ∧ known_user uid s))| | |done].
      * intros s [Hok Hu]. split; [done|]. by eapply request_user_known.
      * by intros [pk p] s [[Hok _] [Hpk _]].
    + by intros s [Hok _].
    + eapply hoare_bind; [apply hoare_Profile_create|intros user_profile].
      eapply hoare_bind with
        (R := λ _ s, store_ok s ∧ profiles s !! user_profile.1 = Some user_profile.2).
      * eapply hoare_consequence;
          [apply (hoare_Profile_save _ _ user_profile.2)| |done|done].
        by intros s (Hok & Hpk & _).
      * intros ?. by apply hoare_ret.
  - intros [pk p]. simpl.
    case_decide; [destruct (ProfileForm_is_valid _ _ _) as [[] [[profileimg bio] location]]|];
      [|apply hoare_ret; by intros s [Hok _]..].
    eapply hoare_bind with (R := λ _, store_ok); [|intros ?; by apply hoare_ret].
    eapply hoare_consequence; [apply (hoare_Profile_save _ _ p)| | |done].
    + by intros s [Hok Hpk].
    + by intros ? s [Hok _].
Qed.

Lemma store_ok_view view request :
  view ∈ views → hoare store_ok (view request) (λ _, store_ok) store_ok.
Proof.
  unfold views. rewrite !elem_of_cons, elem_of_nil.
  intros [->|[->|[->|[->|[->|[->|[->|[->|[]]]]]]]]].
  - apply hoare_keeps; [apply keeps_accounts_index|apply store_ok_same|done].
  - apply hoare_keeps; [apply keeps_accounts_like_post|apply store_ok_same|done].
  - apply store_ok_signup.
  - apply hoare_keeps; [apply keeps_accounts_profile|apply store_ok_same|done].
  - apply hoare_keeps; [apply keeps_accounts_signin|apply store_ok_same|done].
  - apply store_ok_settings.
  - apply hoare_keeps; [apply keeps_accounts_logout|apply store_ok_same|done].
  - apply hoare_keeps; [apply keeps_accounts_upload|apply store_ok_same|done].
Qed.

Lemma store_ok_step s s' : step s s' → store_ok s → store_ok s'.
Proof.
  intros [view request s0 Hview|o msgs s0] Hok.
  - pose proof (store_ok_view view request Hview s0 Hok) as Hrun.
    by destruct (view request s0) as [[response|e] s1].
  - by apply (store_ok_same s0).
Qed.

(** The integrity of the accounts, which the theorems on signup and on
    settings assume of the store they start from, holds in every store
    reached from one that has it. *)
Theorem accounts_invariant s0 s : store_ok s0 → reachable s0 s → store_ok s.
Proof.
  intros Hinit Hreach. induction Hreach as [|s1 s2 s3 Hstep _ IH]; [done|].
  by eapply IH, store_ok_step.
Qed.

(** ** The feed *)

Lemma request_user_lookup s uid u : request_user s = Some (uid, u) → users s !! uid = Some u.
Proof.
  unfold request_user. intros Hu.
  destruct (session s) as [uid'|]; [|done]. simpl in Hu.
  destruct (users s !! uid') eqn:Huid; [|done]. simpl in Hu. by simplify_eq.
Qed.

(** The only row of a filter that selects at most one. *)
Lemma filter_only_row {K A} `{Countable K} (P : K * A → Prop)
    `{!∀ r, Decision (P r)} (m : gmap K A) k x :
  (size (filter P m) ≤ 1)%nat → m !! k = Some x → P (k, x) →
  map_to_list (filter P m) = [(k, x)].
Proof.
  intros Hmost Hk HP. rewrite (size_filter_delete P m k x Hk), decide_True in Hmost by done.
  assert (filter P (delete k m) = ∅) as Hrest by (apply map_size_empty_iff; lia).
  rewrite <-(insert_delete_id m k x Hk), map_filter_insert_True by done.
  rewrite Hrest, insert_empty. apply map_to_list_singleton.
Qed.

Lemma User_get_request_user s uid u :
  request_user s = Some (uid, u) →
  (users_named (User.username u) s ≤ 1)%nat →
  User_get (User.username u) s = (Ok (uid, u), s).
Proof.
  intros Hu%request_user_lookup Hmost. unfold User_get.
  by rewrite (filter_only_row _ _ uid u Hmost Hu).
Qed.

(** The feed of a signed-in user who has a Profile: the page is rendered
    with that Profile and with every Post of the store, each once, and
    nothing is written. *)
Theorem index_renders_feed request s uid u pk p :
  request_user s = Some (uid, u) →
  (users_named (User.username u) s ≤ 1)%nat →
  profiles s !! pk = Some p →
  Profile.user p = uid →
  (user_profiles uid s ≤ 1)%nat →
  ∃ feed,
    index request s =
      (Ok (Render "index.html" [("user_profile", CProfile pk p); ("posts", CPosts feed)]), s) ∧
    NoDup feed ∧
    ∀ post_id post, (post_id, post) ∈ feed ↔ posts s !! post_id = Some post.
Proof.
  intros Hu Hname Hpk Hof Hmost. exists (map_to_list (posts s)). split_and!.
  - unfold index, login_required. rewrite (authenticated_user _ _ _ Hu).
    unfold index_body. unfold bind at 1, gets at 1, request_username. rewrite Hu.
    unfold bind at 1. rewrite (User_get_request_user _ _ _ Hu Hname).
    unfold bind at 1, Profile_get. simpl.
    by rewrite (filter_only_row (profile_of uid) _ pk p Hmost Hpk Hof).
  - apply NoDup_map_to_list.
  - intros post_id post. apply elem_of_map_to_list.
Qed.

(** The feed does not provide for a missing Profile as the settings page
    does: a signed-in user without one gets the unhandled lookup exception. *)
Theorem index_without_profile request s uid u :
  request_user s = Some (uid, u) →
  (users_named (User.username u) s ≤ 1)%nat →
  user_profiles uid s = 0%nat →
  index request s = (Raise (DoesNotExist "Profile"), s).
Proof.
  intros Hu Hname Hnone. apply map_size_empty_iff in Hnone.
  unfold index, login_required. rewrite (authenticated_user _ _ _ Hu).
  unfold index_body. unfold bind at 1, gets at 1, request_username. rewrite Hu.
  unfold bind at 1. rewrite (User_get_request_user _ _ _ Hu Hname).
  unfold bind at 1, Profile_get. simpl. by rewrite Hnone, map_to_list_empty.
Qed.

(** The feed and the profile page only read: whatever the request, the
    session and the store, and however the view ends, the state is the one
    it started from. *)
Theorem index_profile_read_only request s :
  (index request s).2 = s ∧ (profile request s).2 = s.
Proof.
  split.
  - assert (keeps (λ s, s) (index request)) as Hkeeps;
      [unfold index, index_body; solve_keeps|apply Hkeeps].
  - done.
Qed.

(** ** Signin and logout *)

Lemma authenticate_known s username password uid u :
  users s !! uid = Some u →
  User.username u = username →
  (users_named username s ≤ 1)%nat →
  authenticate username password s =
    (Ok (if check_password password (User.password u) then Some (uid, u) else None), s).
Proof.
  intros Huid Hname Hmost. unfold authenticate.
  by rewrite (filter_only_row (user_has_username username) _ uid u Hmost Huid Hname).
Qed.

Lemma authenticate_unknown s username password :
  users_named username s = 0%nat → authenticate username password s = (Ok None, s).
Proof.
  intros Hnone%map_size_empty_iff. unfold authenticate.
  by rewrite Hnone, map_to_list_empty.
Qed.

Lemma signin_fields request s username password :
  method request = "POST" →
  POST request !! "username" = Some username →
  POST request !! "password" = Some password →
  signin request s =
    (let* user := authenticate username password in
     match user with
     | Some _ => auth_login user;; ret (Redirect "/")
     | None => messages_info "Credentials Invalid";; ret (Redirect "/signin")
     end) s.
Proof.
  intros Hm Hu Hp. unfold signin. rewrite decide_True by done.
  unfold subscript. rewrite Hu, Hp. by unfold bind at 1 2.
Qed.

(** Signin with the credentials of a registered user: the session becomes
    that user's, whoever it belonged to before, the answer is the redirect
    to home, and no table and no message is written.  The username is that
    of one account only and the hasher accepts the password against the
    stored hash. *)
Theorem signin_opens_session request s username password uid u :
  method request = "POST" →
  POST request !! "username" = Some username →
  POST request !! "password" = Some password →
  users s !! uid = Some u →
  User.username u = username →
  (users_named username s ≤ 1)%nat →
  check_password password (User.password u) = true →
  ∃ s', signin request s = (Ok (Redirect "/"), s') ∧
        session s' = Some uid ∧ request_user s' = Some (uid, u) ∧
        users s' = users s ∧ profiles s' = profiles s ∧ posts s' = posts s ∧
        likes s' = likes s ∧ messages s' = messages s.
Proof.
  intros Hm Hu Hp Huid Hname Hmost Hcheck. eexists.
  rewrite (signin_fields _ _ _ _ Hm Hu Hp). unfold bind at 1.
  rewrite (authenticate_known _ _ _ _ _ Huid Hname Hmost), Hcheck.
  split; [done|]. split_and!; try done.
  unfold request_user. simpl. by rewrite Huid.
Qed.

(** Signin with a username that no account has, or with a password that
    the hasher rejects against the stored hash: the message is queued, the
    answer is the redirect back to signin, and the session stays as it was,
    so a user who was signed in remains so. *)
Theorem signin_rejects request s username password :
  method request = "POST" →
  POST request !! "username" = Some username →
  POST request !! "password" = Some password →
  (users_named username s = 0%nat ∨
   ∃ uid u, users s !! uid = Some u ∧ User.username u = username ∧
            (users_named username s ≤ 1)%nat ∧
            check_password password (User.password u) = false) →
  ∃ s', signin request s = (Ok (Redirect "/signin"), s') ∧
        messages s' = (messages s ++ ["Credentials Invalid"])%list ∧
        session s' = session s ∧
        users s' = users s ∧ profiles s' = profiles s ∧ posts s' = posts s ∧
        likes s' = likes s.
Proof.
  intros Hm Hu Hp Hbad. eexists.
  rewrite (signin_fields _ _ _ _ Hm Hu Hp). unfold bind at 1.
  destruct Hbad as [Hnone|(uid & u & Huid & Hname & Hmost & Hcheck)].
  - by rewrite (authenticate_unknown _ _ _ Hnone).
  - by rewrite (authenticate_known _ _ _ _ _ Huid Hname Hmost), Hcheck.
Qed.

(** Logout, with or without a session: the answer is the redirect to
    signin, the session is closed and nothing else is written; a second
    logout changes nothing more, and the four gated views then answer with
    the redirect to the sign-in entry point. *)
Theorem logout_closes_session request s :
  ∃ s', logout request s = (Ok (Redirect "signin"), s') ∧
        session s' = None ∧ request_user s' = None ∧
        users s' = users s ∧ profiles s' = profiles s ∧ posts s' = posts s ∧
        likes s' = likes s ∧ messages s' = messages s ∧
        (∀ request', logout request' s' = (Ok (Redirect "signin"), s')) ∧
        (∀ next,
           index next s' = (Ok (RedirectToLogin "signin" (path next)), s') ∧
           like_post next s' = (Ok (RedirectToLogin "signin" (path next)), s') ∧
           settings next s' = (Ok (RedirectToLogin "signin" (path next)), s') ∧
           upload next s' = (Ok (RedirectToLogin "signin" (path next)), s')).
Proof.
  exists (set_session None s). by split_and!.
Qed.

(** ** Submissions that lack a field *)

(** A signup or signin submission that lacks one of the fields the view
    reads ends in the unhandled key error of the first field that is
    missing, in the order the view reads them, before any check and without
    writing anything. *)
Theorem missing_field_raises request s (before : list string) key after :
  method request = "POST" →
  (∀ k, k ∈ before → is_Some (POST request !! k)) →
  POST request !! key = None →
  (["username"; "email"; "password"; "password2"] = (before ++ key :: after)%list →
   signup request s = (Raise (MultiValueDictKeyError key), s)) ∧
  (["username"; "password"] = (before ++ key :: after)%list →
   signin request s = (Raise (MultiValueDictKeyError key), s)).
Proof.
  clear to_python. intros Hm Hbefore Hkey.
  assert (∀ k, k ∈ before → ∃ v, subscript (POST request) k = ret v) as Hread.
  { intros k [v Hv]%Hbefore. exists v. unfold subscript. by rewrite Hv. }
  assert (subscript (POST request) key = raise (MultiValueDictKeyError key)) as Hraise.
  { unfold subscript. by rewrite Hkey. }
  split; intros Hfields.
  - unfold signup. rewrite decide_True by done.
    destruct before as [|k1 [|k2 [|k3 [|k4 rest]]]]; simplify_eq/=.
    + by rewrite Hraise.
    + destruct (Hread "username") as [? ->]; [set_solver|]. by rewrite Hraise.
    + destruct (Hread "username") as [? ->]; [set_solver|].
      destruct (Hread "email") as [? ->]; [set_solver|]. by rewrite Hraise.
    + destruct (Hread "username") as [? ->]; [set_solver|].
      destruct (Hread "email") as [? ->]; [set_solver|].
      destruct (Hread "password") as [? ->]; [set_solver|]. by rewrite Hraise.
    + by destruct rest.
  - unfold signin. rewrite decide_True by done.
    destruct before as [|k1 [|k2 rest]]; simplify_eq/=.
    + by rewrite Hraise.
    + destruct (Hread "username") as [? ->]; [set_solver|]. by rewrite Hraise.
    + by destruct rest.
Qed.

(** ** Signup, then *)

Lemma email_free email s :
  User_email_exists email s = false → filter (user_has_email email) (users s) = ∅.
Proof. intros Hfree%bool_decide_eq_false. by apply dec_stable. Qed.

(** One run of [signup] for a submission that passes the three checks,
    with a username that the user manager stores as it is. *)
Lemma signup_run request s username email password :
  method request = "POST" →
  POST request !! "username" = Some username →
  POST request !! "email" = Some email →
  POST request !! "password" = Some password →
  POST request !! "password2" = Some password →
  User_email_exists email s = false →
  User_username_exists username s = false →
  username ≠ "" →
  normalize_username username = username →
  check_password password (make_password password) = true →
  profiles_refer s →
  signup request s =
    (Ok (Redirect "settings"),
     set_profiles <[next_pk (profiles s) := Profile.mk (next_pk (users s)) None "" ""]>
       (set_session (Some (next_pk (users s)))
          (set_users <[next_pk (users s) :=
                         User.mk username (normalize_email email) (make_password password)]> s))).
Proof.
  intros Hm Hu He Hp Hp2 Hemail Hname Hfilled Hnormal Hcheck Href.
  rewrite (signup_fields _ _ _ _ _ _ Hm Hu He Hp Hp2).
  rewrite decide_True, Hemail, Hname by done.
  pose proof (username_free _ _ Hname) as Hfree.
  pose proof (no_profile_of_new_user _ Href) as Hnew.
  unfold bind at 1, User_create_user at 1. rewrite decide_False, Hnormal, Hname by done.
  unfold bind at 1, User_save at 1, modify at 1.
  unfold bind at 1, authenticate at 1. simpl.
  rewrite insert_insert_eq, map_filter_insert_True, Hfree, insert_empty,
    map_to_list_singleton by done.
  simpl. rewrite Hcheck.
  unfold bind at 1, auth_login at 1, modify at 1.
  unfold bind at 1, Profile_create at 1. simpl.
  rewrite bool_decide_eq_false_2 by (by rewrite Hnew; intros []).
  unfold ret, set_profiles, set_session, set_users. simpl.
  by rewrite insert_insert_eq.
Qed.

Lemma users_named_new_user s username email hash :
  User_username_exists username s = false →
  users_named username
    (set_users <[next_pk (users s) := User.mk username email hash]> s) = 1%nat.
Proof.
  intros Hfree%username_free. unfold users_named. simpl.
  rewrite size_filter_insert_fresh by apply next_pk_fresh.
  rewrite decide_True by done. by rewrite Hfree, map_size_empty.
Qed.

(** The account that signup creates can be used: after the signup of a
    username that is not empty and in normal form and a logout, a signin
    with the same username and password opens the session of the new user
    again, and the state is then the one signup left. *)
Theorem signup_logout_signin request logout_request signin_request s username email password :
  method request = "POST" →
  POST request !! "username" = Some username →
  POST request !! "email" = Some email →
  POST request !! "password" = Some password →
  POST request !! "password2" = Some password →
  User_email_exists email s = false →
  User_username_exists username s = false →
  username ≠ "" →
  normalize_username username = username →
  check_password password (make_password password) = true →
  profiles_refer s →
  method signin_request = "POST" →
  POST signin_request !! "username" = Some username →
  POST signin_request !! "password" = Some password →
  ∃ uid s1 s2,
    signup request s = (Ok (Redirect "settings"), s1) ∧
    request_user s1 =
      Some (uid, User.mk username (normalize_email email) (make_password password)) ∧
    logout logout_request s1 = (Ok (Redirect "signin"), s2) ∧
    request_user s2 = None ∧
    signin signin_request s2 = (Ok (Redirect "/"), s1).
Proof.
  intros Hm Hu He Hp Hp2 Hemail Hname Hfilled Hnormal Hcheck Href Hm' Hu' Hp'.
  exists (next_pk (users s)). eexists. eexists.
  split; [by apply signup_run|]. split_and!.
  - unfold request_user. simpl. by rewrite lookup_insert_eq.
  - done.
  - done.
  - rewrite (signin_fields _ _ _ _ Hm' Hu' Hp'). unfold bind at 1.
    erewrite (authenticate_known _ username password (next_pk (users s)));
      [|simpl; apply lookup_insert_eq|done
       |by rewrite <-(users_named_new_user s username (normalize_email email)
                        (make_password password) Hname)].
    simpl. by rewrite Hcheck.
Qed.

(** Signup cannot be repeated: once a submission has created an account,
    the same submission fails on the email when its address was in normal
    form, and a submission with the same username and an address that is
    neither registered nor the one stored (the first address again, when it
    was not in normal form) fails on the username; neither creates
    anything. *)
Theorem signup_not_repeatable request request' s username email email' password password' :
  method request = "POST" →
  POST request !! "username" = Some username →
  POST request !! "email" = Some email →
  POST request !! "password" = Some password →
  POST request !! "password2" = Some password →
  User_email_exists email s = false →
  User_username_exists username s = false →
  username ≠ "" →
  normalize_username username = username →
  check_password password (make_password password) = true →
  profiles_refer s →
  method request' = "POST" →
  POST request' !! "username" = Some username →
  POST request' !! "email" = Some email' →
  POST request' !! "password" = Some password' →
  POST request' !! "password2" = Some password' →
  email' ≠ normalize_email email →
  User_email_exists email' s = false →
  ∃ s1, signup request s = (Ok (Redirect "settings"), s1) ∧
        (normalize_email email = email → signup_fails request s1 DuplicateEmail) ∧
        signup_fails request' s1 DuplicateUsername.
Proof.
  intros Hm Hu He Hp Hp2 Hemail Hname Hfilled Hnormal Hcheck Href
    Hm' Hu' He' Hp' Hp2' Hne Hemail'.
  eexists. split; [by apply signup_run|].
  set (uid := next_pk (users s)).
  set (user := User.mk username (normalize_email email) (make_password password)).
  set (s1 := set_profiles _ _).
  assert (users s1 = <[uid := user]> (users s)) as Husers by done.
  assert (User_username_exists username s1 = true) as Hnamed.
  { apply bool_decide_eq_true. rewrite Husers. intros Hempty.
    apply (map_filter_empty_not_lookup _ _ uid user) in Hempty; [|done].
    by rewrite lookup_insert_eq in Hempty. }
  assert (User_email_exists email' s1 = false) as Hfree'.
  { apply bool_decide_eq_false. rewrite Husers. intros Hsome. apply Hsome.
    rewrite map_filter_insert_False by (unfold user_has_email; simpl; congruence).
    rewrite delete_id by apply next_pk_fresh. by apply email_free. }
  split; unfold signup_fails.
  - intros Hstored.
    assert (User_email_exists email s1 = true) as Htaken.
    { apply bool_decide_eq_true. rewrite Husers. intros Hempty.
      apply (map_filter_empty_not_lookup _ _ uid user) in Hempty; [|done].
      by rewrite lookup_insert_eq in Hempty. }
    rewrite (signup_fields _ _ _ _ _ _ Hm Hu He Hp Hp2).
    rewrite decide_True, Htaken by done. by eexists.
  - rewrite (signup_fields _ _ _ _ _ _ Hm' Hu' He' Hp' Hp2').
    rewrite decide_True, Hfree', Hnamed by done. by eexists.
Qed.

(** ** What the views do to the users and to the uploads *)

Lemma hoare_kept {X A} (part : State → X) (P E : State → Prop) (m : M A) :
  keeps part m →
  (∀ s s', part s' = part s → P s → P s') →
  (∀ s, P s → E s) →
  hoare P m (λ _, P) E.
Proof.
  intros Hm HP HE s Hs. specialize (Hm s).
  destruct (m s) as [[a|e] s']; [|apply HE]; by apply (HP s).
Qed.

Lemma keeps_users_Profile_create uid : keeps users (Profile_create uid).
Proof. intros s. unfold Profile_create. by case_bool_decide. Qed.

Lemma keeps_users_LikePost_create post_id username :
  keeps users (LikePost_create post_id username).
Proof. by intros s. Qed.

Lemma keeps_users_Post_create user image caption : keeps users (Post_create user image caption).
Proof. intros s. unfold Post_create. by destruct (posts s !! _). Qed.

#[local] Hint Resolve keeps_users_Profile_create keeps_users_LikePost_create
  keeps_users_Post_create : keeps.

(** Every view but [signup] leaves the users alone. *)
Lemma keeps_users_view view request :
  view ∈ views → view = signup ∨ keeps users (view request).
Proof.
  unfold views. rewrite !elem_of_cons, elem_of_nil.
  intros [->|[->|[->|[->|[->|[->|[->|[->|[]]]]]]]]]; [right|right|by left|right..].
  - unfold index, index_body. solve_keeps.
  - unfold like_post, like_post_body. solve_keeps.
  - unfold profile. solve_keeps.
  - unfold signin. solve_keeps.
  - unfold settings, settings_body. solve_keeps.
  - unfold logout. solve_keeps.
  - unfold upload, upload_body. solve_keeps.
Qed.

Lemma hoare_bind_kept {X A B} (part : State → X) (P : State → Prop) Q E
    (m : M A) (k : A → M B) :
  keeps part m →
  (∀ s s', part s' = part s → P s → P s') →
  (∀ s, P s → E s) →
  (∀ a, hoare P (k a) Q E) →
  hoare P (bind m k) Q E.
Proof. intros Hm HP HE Hk. eapply hoare_bind; [by apply (hoare_kept part)|done]. Qed.

Lemma username_exists_same_users username s s' :
  users s' = users s → User_username_exists username s' = User_username_exists username s.
Proof. unfold User_username_exists. by intros ->. Qed.

(** A call of [signup] that keeps the users, before the User is created
    and after. *)
Ltac kept_users :=
  apply (hoare_bind_kept users);
    [solve_keeps
    |by intros ? ? ? [<- ?]
    |first [by intros ? [? ?]; left
           |intros ? [? ?]; right; by eexists _, _, _]
    |].

Lemma signup_users_cases request s : signup_users_post s (signup request s).2.
Proof.
  cut (hoare (λ s', users s' = users s ∧ True) (signup request)
         (λ _, signup_users_post s) (signup_users_post s)).
  { intros Hrun. specialize (Hrun s (conj eq_refl I)).
    by destruct (signup request s) as [[response|e] s']. }
  unfold signup. case_decide; [|apply hoare_ret; by intros ? [? ?]; left].
  kept_users; intros username. kept_users; intros email.
  kept_users; intros password. kept_users; intros password2.
  case_decide; [|kept_users; intros ?; apply hoare_ret; by intros ? [? ?]; left].
  kept_users.
  intros [|]; [kept_users; intros ?; apply hoare_ret; by intros ? [? ?]; left|].
  kept_users.
  intros [|]; [kept_users; intros ?; apply hoare_ret; by intros ? [? ?]; left|].
  set (user := User.mk (normalize_username username) (normalize_email email)
                 (make_password password)).
  eapply hoare_bind with
    (R := λ created s',
            users s' = <[next_pk (users s) := user]> (users s) ∧
            (created = (next_pk (users s), user) ∧
             User_username_exists (normalize_username username) s = false)).
  { intros s' [Heq _]. unfold User_create_user. case_decide; [by left|].
    rewrite (username_exists_same_users _ s s' Heq).
    destruct (User_username_exists (normalize_username username) s); [by left|].
    simpl. by rewrite Heq. }
  intros created.
  eapply hoare_bind with
    (R := λ _ s',
            users s' = <[next_pk (users s) := user]> (users s) ∧
            User_username_exists (normalize_username username) s = false).
  { intros s' (Heq & -> & Hfree). simpl. split; [|done].
    by rewrite Heq, insert_insert_eq. }
  intros ?. kept_users; intros user_login. kept_users; intros ?. kept_users; intros ?.
  apply hoare_ret. intros s' [Heq Hname]. right. by eexists _, _, _.
Qed.

Lemma users_view_cases view request s :
  view ∈ views → signup_users_post s (view request s).2.
Proof.
  intros [->|Hkeeps]%(keeps_users_view view request).
  - apply signup_users_cases.
  - left. apply Hkeeps.
Qed.

Lemma usernames_unique_signup_post s s' :
  signup_users_post s s' → usernames_unique s → usernames_unique s'.
Proof.
  unfold usernames_unique, users_named.
  intros [->|(username & email & hash & Hname & ->)] Hnames; [done|].
  intros username'. rewrite size_filter_insert_fresh by apply next_pk_fresh.
  case_decide as Hsame; [|apply Hnames]. unfold user_has_username in Hsame.
  simpl in Hsame. subst username'. by rewrite (username_free _ _ Hname), map_size_empty.
Qed.

(** No two accounts ever share a username: the user manager, through
    which [signup], the only view that writes a User, creates each account,
    refuses a username that is registered, so in every store reached from
    one without such a pair there is none. *)
Theorem usernames_unique_invariant s0 s :
  usernames_unique s0 → reachable s0 s → usernames_unique s.
Proof.
  intros Hinit Hreach. induction Hreach as [|s1 s2 s3 Hstep _ IH]; [done|].
  apply IH. destruct Hstep as [view request s1 Hview|o msgs s1]; [|done].
  apply (usernames_unique_signup_post s1); [by apply users_view_cases|done].
Qed.

Lemma posts_stay_view view request s post_id p :
  view ∈ views →
  posts s !! post_id = Some p →
  ∃ p', posts (view request s).2 !! post_id = Some p' ∧ same_upload p p'.
Proof.
  intros Hview Hp.
  assert (keeps ledger (view request) → ∃ p',
            posts (view request s).2 !! post_id = Some p' ∧ same_upload p p') as Hkeeps.
  { intros Hkeeps. specialize (Hkeeps s). injection Hkeeps as _ ->. by exists p. }
  revert Hview. unfold views. rewrite !elem_of_cons, elem_of_nil.
  intros [->|[->|[->|[->|[->|[->|[->|[->|[]]]]]]]]].
  - apply Hkeeps, keeps_ledger_index.
  - destruct (like_post_cases request s)
      as [(uid & u & liked & key & post & Hu & Hid & Hkey & Hpost)|Hsame];
      [|rewrite Hsame; by exists p].
    rewrite (like_post_run _ _ _ _ _ _ _ Hu Hid Hkey Hpost). simpl.
    destruct (decide (key = post_id)) as [->|Hne].
    + assert (post = p) as -> by congruence.
      destruct (first _); simpl; rewrite lookup_insert_eq; by eexists.
    + destruct (first _); simpl; rewrite lookup_insert_ne by done; by exists p.
  - apply Hkeeps, keeps_ledger_signup.
  - apply Hkeeps, keeps_ledger_profile.
  - apply Hkeeps, keeps_ledger_signin.
  - apply Hkeeps, keeps_ledger_settings.
  - apply Hkeeps, keeps_ledger_logout.
  - destruct (upload_cases request s)
      as [(uid & u & caption & Hu & Hm & Hcaption & Hfresh)|Hsame];
      [|rewrite Hsame; by exists p].
    rewrite (upload_run _ _ _ _ _ Hu Hm Hcaption Hfresh). simpl.
    rewrite lookup_insert_ne by congruence. by exists p.
Qed.

Lemma grows_step s s' : step s s' → grows s s'.
Proof.
  intros [view request s0 Hview|o msgs s0]; [|split; [done|by eexists]].
  split.
  - destruct (users_view_cases view request s0 Hview)
      as [->|(username & email & hash & _ & ->)]; [done|].
    apply insert_subseteq, next_pk_fresh.
  - intros post_id p. by apply posts_stay_view.
Qed.

Lemma grows_trans s1 s2 s3 : grows s1 s2 → grows s2 s3 → grows s1 s3.
Proof.
  intros [Husers Hposts] [Husers' Hposts']. split; [by etrans|].
  intros post_id p Hp.
  destruct (Hposts _ _ Hp) as (p' & Hp' & Hu & Hi & Hc).
  destruct (Hposts' _ _ Hp') as (p'' & Hp'' & Hu' & Hi' & Hc').
  exists p''. split; [done|]. unfold same_upload. split_and!; congruence.
Qed.

(** Nothing deletes or alters an account, and nothing deletes a Post or
    edits what was uploaded: every User of a store is in every store
    reached from it, unchanged, and every Post is still there under its key
    with the same author, image and caption (only its counter may differ). *)
Theorem accounts_and_uploads_stay s0 s : reachable s0 s → grows s0 s.
Proof.
  intros Hreach. induction Hreach as [|s1 s2 s3 Hstep _ IH].
  - split; [done|]. intros post_id p Hp. by exists p.
  - by eapply grows_trans; [apply grows_step|].
Qed.

(** ** What one request leaves alone *)

(** A like request touches one pair and one post: the Like records of any
    other pair of a post identifier and a user, the number of Like records
    that refer to any other post than the one the identifier spells, and any
    other Post with its counter are as they were. *)
Theorem like_post_touches_one_pair request s :
  (∀ post_id username,
     GET request !! "post_id" ≠ Some post_id ∨ request_username s ≠ username →
     pair_likes post_id username (like_post request s).2 = pair_likes post_id username s) ∧
  (∀ key,
     GET request !! "post_id" ≫= to_python ≠ Some key →
     post_likes key (like_post request s).2 = post_likes key s ∧
     posts (like_post request s).2 !! key = posts s !! key).
Proof.
  destruct (like_post_cases request s)
    as [(uid & u & liked & liked_key & post & Hu & Hid & Hkey & Hpost)|Hsame];
    [|by rewrite Hsame].
  rewrite (like_post_run _ _ _ _ _ _ _ Hu Hid Hkey Hpost). simpl.
  assert (request_username s = User.username u) as Hname
    by (unfold request_username; by rewrite Hu).
  rewrite Hid, Hname. simpl. rewrite Hkey.
  pose proof (next_pk_fresh (likes s)) as Hfresh.
  destruct (first _) as [[pk like]|] eqn:Hfirst; simpl.
  - apply first_like_Some in Hfirst as (Hpk & [Hl Hn] & _). simpl in Hl, Hn. split.
    + intros post_id username Hother. unfold pair_likes, LikePost_filter. simpl.
      rewrite (size_filter_delete (like_matches post_id username) (likes s) pk like Hpk).
      rewrite decide_False; [done|]. unfold like_matches. simpl. intros [<- <-].
      destruct Hother as [Hother|Hother]; congruence.
    + intros key Hother. split; [|rewrite lookup_insert_ne; congruence].
      unfold post_likes. simpl.
      rewrite (size_filter_delete (like_of_post key) (likes s) pk like Hpk).
      rewrite decide_False; [done|]. unfold like_of_post. simpl. congruence.
  - split.
    + intros post_id username Hother. unfold pair_likes, LikePost_filter. simpl.
      rewrite size_filter_insert_fresh by done.
      rewrite decide_False; [done|]. unfold like_matches. simpl. intros [<- <-].
      destruct Hother as [Hother|Hother]; congruence.
    + intros key Hother. split; [|rewrite lookup_insert_ne; congruence].
      unfold post_likes. simpl. rewrite size_filter_insert_fresh by done.
      rewrite decide_False; [done|]. unfold like_of_post. simpl. congruence.
Qed.

(** The settings page of a signed-in user who has a Profile: a request
    that is not a submission renders the page with that Profile and writes
    nothing; a submission the form rejects renders the page with that
    Profile as validation left it, the fields it accepted written in, and
    writes nothing to the store; a submission the form accepts writes the
    three cleaned fields into that Profile, under its key and for the same
    user, redirects to settings, and touches no other row. *)
Theorem settings_edits_own_profile request s uid u pk p :
  request_user s = Some (uid, u) →
  profiles s !! pk = Some p →
  Profile.user p = uid →
  (user_profiles uid s ≤ 1)%nat →
  (method request ≠ "POST" →
   settings request s =
     (Ok (Render "setting.html"
            [("user_profile", CProfile pk p); ("form", CForm false)]), s)) ∧
  (∀ profileimg bio location,
     method request = "POST" →
     ProfileForm_is_valid (POST request) (FILES request) p =
       (false, (profileimg, bio, location)) →
     settings request s =
       (Ok (Render "setting.html"
              [("user_profile", CProfile pk (Profile.mk uid profileimg bio location));
               ("form", CForm true)]), s)) ∧
  (∀ profileimg bio location,
     method request = "POST" →
     ProfileForm_is_valid (POST request) (FILES request) p =
       (true, (profileimg, bio, location)) →
     ∃ s', settings request s = (Ok (Redirect "settings"), s') ∧
           profiles s' = <[pk := Profile.mk uid profileimg bio location]> (profiles s) ∧
           users s' = users s ∧ posts s' = posts s ∧ likes s' = likes s ∧
           session s' = session s ∧ messages s' = messages s).
Proof.
  intros Hu Hpk Hof Hmost.
  assert (settings request s =
            (if decide (method request = "POST") then
               match ProfileForm_is_valid (POST request) (FILES request) p with
               | (true, (profileimg, bio, location)) =>
                   (Ok (Redirect "settings"),
                    set_profiles <[pk := Profile.mk (Profile.user p) profileimg bio location]> s)
               | (false, (profileimg, bio, location)) =>
                   (Ok (Render "setting.html"
                          [("user_profile",
                            CProfile pk (Profile.mk (Profile.user p) profileimg bio location));
                           ("form", CForm true)]), s)
               end
             else
               (Ok (Render "setting.html"
                      [("user_profile", CProfile pk p); ("form", CForm false)]), s))) as ->.
  { unfold settings, login_required. rewrite (authenticated_user _ _ _ Hu).
    unfold settings_body. unfold bind at 1, gets at 1. rewrite Hu.
    unfold bind at 1, try_except, Profile_get.
    rewrite (filter_only_row (profile_of uid) _ pk p Hmost Hpk Hof). simpl.
    case_decide; [|done].
    by destruct (ProfileForm_is_valid _ _ _) as [[] [[profileimg bio] location]]. }
  split_and!.
  - intros Hm. by rewrite decide_False.
  - intros profileimg bio location Hm ->. rewrite decide_True by done. by rewrite Hof.
  - intros profileimg bio location Hm ->. rewrite decide_True by done.
    eexists. split; [done|]. simpl. by rewrite Hof.
Qed.

(** What [upload] does not accept: a request of a signed-in user that is
    not a submission is redirected to home, and a submission without a
    caption ends in the unhandled key error, with or without a file; neither
    writes anything. *)
Theorem upload_writes_nothing request s uid u :
  request_user s = Some (uid, u) →
  (method request ≠ "POST" → upload request s = (Ok (Redirect "/"), s)) ∧
  (method request = "POST" → POST request !! "caption" = None →
   upload request s = (Raise (MultiValueDictKeyError "caption"), s)).
Proof.
  intros Hu. unfold upload, login_required. rewrite (authenticated_user _ _ _ Hu).
  unfold upload_body. split.
  - intros Hm. by rewrite decide_False.
  - intros Hm Hcaption. rewrite decide_True by done.
    unfold bind, gets, subscript. by rewrite Hcaption.
Qed.

(** In every store reached from a consistent one no like counter is
    negative, and the post identifier of every Like record spells the key of
    a Post that is there. *)
Theorem ledger_sound s0 s :
  consistent s0 →
  reachable s0 s →
  (∀ key post, posts s !! key = Some post → (0 ≤ Post.no_of_likes post)%Z) ∧
  (∀ pk like, likes s !! pk = Some like →
     ∃ key, to_python (LikePost.post_id like) = Some key ∧ is_Some (posts s !! key)).
Proof.
  intros Hinit%consistent_ledger_ok Hreach.
  assert (ledger_ok s) as (_ & Hcount & Href).
  { induction Hreach as [|s1 s2 s3 Hstep _ IH]; [done|]. by eapply IH, ledger_ok_step. }
  split.
  - intros key post Hpost. rewrite (Hcount _ _ Hpost). lia.
  - intros pk like Hpk. specialize (Href pk like Hpk). simpl in Href.
    destruct (to_python (LikePost.post_id like)) as [key|]; simpl in Href.
    + by exists key.
    + by destruct Href.
Qed.

Lemma set_no_of_likes_redo post :
  Post.set_no_of_likes (Post.no_of_likes post - 1 + 1)
    (Post.set_no_of_likes (Post.no_of_likes post - 1) post) = post.
Proof. destruct post as [user image caption n]. unfold Post.set_no_of_likes. simpl. f_equal. lia. Qed.

(** The toggle the other way round: for a pair with exactly one Like
    record, two like requests in a row (the unlike, then the like) take the
    Like away and put one back, under a new key, and bring every Post and
    its counter back to what they were. *)
Theorem unlike_like_roundtrip request s uid u post_id key post :
  request_user s = Some (uid, u) →
  GET request !! "post_id" = Some post_id →
  to_python post_id = Some key →
  posts s !! key = Some post →
  pair_likes post_id (User.username u) s = 1%nat →
  ∃ s1 s2,
    like_post request s = (Ok (Redirect "/"), s1) ∧
    pair_likes post_id (User.username u) s1 = 0%nat ∧
    Post.no_of_likes <$> posts s1 !! key = Some (Post.no_of_likes post - 1) ∧
    like_post request s1 = (Ok (Redirect "/"), s2) ∧
    pair_likes post_id (User.username u) s2 = 1%nat ∧
    posts s2 = posts s ∧
    users s2 = users s ∧ profiles s2 = profiles s ∧
    session s2 = session s ∧ messages s2 = messages s.
Proof.
  intros Hu Hid Hkey Hpost Hone.
  destruct (first (LikePost_filter post_id (User.username u) s)) as [[pk like]|] eqn:Hfirst;
    [|apply pair_likes_first_None in Hfirst; lia].
  pose proof (first_like_Some _ _ _ _ _ Hfirst) as (Hpk & HP & _).
  set (s1 := set_posts <[key := Post.set_no_of_likes (Post.no_of_likes post - 1) post]>
               (set_likes (delete pk) s)).
  assert (pair_likes post_id (User.username u) s1 = 0%nat) as Hnone.
  { pose proof (pair_likes_delete _ _ s pk like Hpk HP) as Hsize.
    unfold pair_likes, LikePost_filter in *. simpl in *. lia. }
  exists s1. eexists. split_and!.
  - rewrite (like_post_run _ _ _ _ _ _ _ Hu Hid Hkey Hpost). by rewrite Hfirst.
  - done.
  - simpl. by rewrite lookup_insert_eq.
  - erewrite like_post_run; [|exact Hu|exact Hid|exact Hkey|simpl; apply lookup_insert_eq].
    apply pair_likes_first_None in Hnone. by rewrite Hnone.
  - unfold pair_likes, LikePost_filter in *. simpl in *.
    rewrite size_filter_insert_fresh by apply next_pk_fresh.
    rewrite decide_True by done. by rewrite Hnone.
  - simpl. rewrite insert_insert_eq, set_no_of_likes_redo. by apply insert_id.
  - done.
  - done.
  - done.
  - done.
Qed.

End views.

(** ** The theorems at work on the fixtures *)


(** The example of the specification: alice's post starts at 0, bob likes
    it (counter 1, the Like is there) and likes it again (counter 0, the
    Like is gone). *)
Lemma like_unlike_roundtrip_witness :
  ∃ s1 s2,
    like_post demo_to_python (like_request "p") demo_state = (Ok (Redirect "/"), s1) ∧
    (∃ pk, likes demo_state !! pk = None ∧
           likes s1 = <[pk := LikePost.mk "p" "bob"]> (likes demo_state)) ∧
    pair_likes "p" "bob" s1 = 1%nat ∧
    Post.no_of_likes <$> posts s1 !! "p" = Some (0 + 1) ∧
    like_post demo_to_python (like_request "p") s1 = (Ok (Redirect "/"), s2) ∧
    Post.no_of_likes <$> posts s2 !! "p" = Some 0 ∧
    pair_likes "p" "bob" s2 = 0%nat ∧
    s2 = demo_state.
Proof.
  apply (like_unlike_roundtrip demo_to_python (like_request "p") demo_state 2%nat bob
           "p" "p" hello_post);
    by vm_compute.
Defined.

(** bob asks for a post under a string that spells no key, and under the
    key of no Post. *)
Lemma like_post_missing_post_witness :
  like_post demo_to_python (like_request "no-such-post") demo_state =
    (Raise ValidationError, demo_state) ∧
  like_post demo_to_python (like_request "ppp") demo_state =
    (Raise (DoesNotExist "Post"), demo_state).
Proof.
  split.
  - destruct (like_post_missing_post demo_to_python (like_request "no-such-post")
                demo_state 2%nat bob) as (_ & _ & Hrefused & _); [by vm_compute..|].
    by apply (Hrefused "no-such-post").
  - destruct (like_post_missing_post demo_to_python (like_request "ppp")
                demo_state 2%nat bob) as (_ & _ & _ & Hmissing); [by vm_compute..|].
    by apply (Hmissing "ppp" "ppp").
Defined.

Lemma unlike_deletes_one_witness :
  ∃ pk like s',
    like_post demo_to_python (like_request "p") drifted_state = (Ok (Redirect "/"), s') ∧
    likes drifted_state !! pk = Some like ∧
    like_matches "p" "bob" (pk, like) ∧
    (∀ pk' like', likes drifted_state !! pk' = Some like' →
       like_matches "p" "bob" (pk', like') → (pk ≤ pk')%nat) ∧
    likes s' = delete pk (likes drifted_state) ∧
    S (pair_likes "p" "bob" s') = pair_likes "p" "bob" drifted_state ∧
    (0 < pair_likes "p" "bob" s')%nat ∧
    Post.no_of_likes <$> posts s' !! "p" = Some (2 - 1).
Proof.
  apply (unlike_deletes_one demo_to_python (like_request "p") drifted_state 2%nat bob "p" "p"
           (Post.set_no_of_likes 2 hello_post)); by vm_compute.
Defined.

Lemma gated_views_anonymous_witness :
  index (like_request "p") anonymous_state =
    (Ok (RedirectToLogin "signin" "/like-post"), anonymous_state) ∧
  like_post demo_to_python (like_request "p") anonymous_state =
    (Ok (RedirectToLogin "signin" "/like-post"), anonymous_state) ∧
  settings demo_ProfileForm_is_valid (like_request "p") anonymous_state =
    (Ok (RedirectToLogin "signin" "/like-post"), anonymous_state) ∧
  upload demo_new_post_id (like_request "p") anonymous_state =
    (Ok (RedirectToLogin "signin" "/like-post"), anonymous_state).
Proof.
  apply (gated_views_anonymous demo_new_post_id demo_ProfileForm_is_valid demo_to_python
           (like_request "p") anonymous_state).
  by vm_compute.
Defined.

(** A submission that fails all three checks is reported as a password
    mismatch; with the passwords made equal, as a duplicate email. *)
Lemma signup_failure_order_witness :
  signup_fails demo_make_password demo_check_password demo_normalize_username
    demo_normalize_email
    (signup_request "alice" "bob@example.org" "one" "other") demo_state PasswordMismatch ∧
  signup_fails demo_make_password demo_check_password demo_normalize_username
    demo_normalize_email
    (signup_request "alice" "bob@example.org" "one" "one") demo_state DuplicateEmail.
Proof.
  split.
  - destruct (signup_failure_order demo_make_password demo_check_password
                demo_normalize_username demo_normalize_email
                (signup_request "alice" "bob@example.org" "one" "other") demo_state
                "alice" "bob@example.org" "one" "other")
      as (Hfail & _ & _); [by vm_compute..|].
    by apply Hfail.
  - destruct (signup_failure_order demo_make_password demo_check_password
                demo_normalize_username demo_normalize_email
                (signup_request "alice" "bob@example.org" "one" "one") demo_state
                "alice" "bob@example.org" "one" "one")
      as (_ & Hfail & _); [by vm_compute..|].
    by apply Hfail.
Defined.

(** C4 as stated fails: a submission with matching passwords, an
    unregistered email and the empty username, which is not registered
    either, creates no account; the request ends in the unhandled
    [ValueError] of the user manager. *)
Lemma signup_empty_username :
  User_email_exists "carol@example.org" demo_state = false ∧
  User_username_exists "" demo_state = false ∧
  signup demo_make_password demo_check_password demo_normalize_username demo_normalize_email
    (signup_request "" "carol@example.org" "c-secret" "c-secret") demo_state =
    (Raise ValueError, demo_state).
Proof. by vm_compute. Defined.

(** carol signs up with an address whose domain is in upper case: the
    account holds the address in normal form. *)
Lemma signup_creates_account_witness :
  ∃ uid pk s',
    signup demo_make_password demo_check_password demo_normalize_username demo_normalize_email
      (signup_request "carol" "carol@EXAMPLE.org" "c-secret" "c-secret") demo_state =
      (Ok (Redirect "settings"), s') ∧
    users demo_state !! uid = None ∧
    users s' !! uid = Some (User.mk "carol" "carol@example.org" (demo_make_password "c-secret")) ∧
    profiles s' !! pk = Some (Profile.mk uid None "" "") ∧
    user_profiles uid s' = 1%nat ∧
    session s' = Some uid.
Proof.
  destruct (signup_creates_account demo_make_password demo_check_password
              demo_normalize_username demo_normalize_email
              (signup_request "carol" "carol@EXAMPLE.org" "c-secret" "c-secret") demo_state
              "carol" "carol@EXAMPLE.org" "c-secret")
    as (uid & pk & s' & Hrun & Hfresh & Husers & _ & Hprofiles & Hone & Hsession & _);
    [by vm_compute..|by apply (bool_decide_unpack _); vm_compute|].
  exists uid, pk, s'. split_and!; [done..| | |done|done].
  - rewrite Husers. apply lookup_insert_eq.
  - rewrite Hprofiles. apply lookup_insert_eq.
Defined.

(** bob, signed in but without a Profile, opens the settings page. *)
Lemma settings_provides_profile_witness :
  ∃ response s',
    settings demo_ProfileForm_is_valid (settings_request "GET" ∅) no_profile_state =
      (Ok response, s') ∧
    user_profiles 2 no_profile_state = 0%nat ∧
    user_profiles 2 s' = 1%nat.
Proof.
  destruct (settings_provides_profile demo_ProfileForm_is_valid (settings_request "GET" ∅)
              no_profile_state 2%nat bob)
    as [_ Hrun]; [by vm_compute|].
  destruct Hrun as (response & s' & Hrun & Hone & _); [vm_compute; lia|].
  exists response, s'. split_and!; [done|by vm_compute|done].
Defined.

(** C9 as stated fails: bob uploads a caption without attaching a file; the
    Post is created all the same, with no image reference. *)
Lemma upload_without_image :
  ∃ pk post s',
    upload demo_new_post_id (upload_request ∅ "no picture") demo_state =
      (Ok (Redirect "/"), s') ∧
    posts demo_state !! pk = None ∧
    posts s' !! pk = Some post ∧
    Post.image post = None.
Proof.
  exists "pp", (Post.mk "bob" None "no picture" 0). eexists.
  split_and!; by vm_compute.
Defined.

Lemma upload_creates_post_witness :
  ∃ pk post s',
    upload demo_new_post_id
      (upload_request {[ "image_upload" := "post_images/cat.png" ]} "a cat") demo_state =
      (Ok (Redirect "/"), s') ∧
    posts demo_state !! pk = None ∧
    posts s' !! pk = Some post ∧
    Post.user post = "bob" ∧
    Post.image post = Some "post_images/cat.png" ∧
    Post.no_of_likes post = 0.
Proof.
  destruct (upload_creates_post demo_new_post_id
              (upload_request {[ "image_upload" := "post_images/cat.png" ]} "a cat")
              demo_state) as [_ Hrun].
  destruct (Hrun 2%nat bob "a cat")
    as (pk & post & s' & Hrun' & Hfresh & Hposts & Huser & Himage & _ & Hzero & _);
    [by vm_compute..|].
  exists pk, post, s'. split_and!; [done..| |done|done|done].
  rewrite Hposts. apply lookup_insert_eq.
Defined.

(** The example of the specification runs as it says. *)
Lemma example_trace_counts :
  let trace :=
    example_trace demo_make_password demo_check_password demo_new_post_id
      demo_normalize_username demo_normalize_email demo_to_python in
  let unlike := (like_post demo_to_python, like_request "p") in
  Post.no_of_likes <$> posts (run trace fresh_state) !! "p" = Some 1 ∧
  pair_likes "p" "bob" (run trace fresh_state) = 1%nat ∧
  Post.no_of_likes <$> posts (run (trace ++ [unlike]) fresh_state) !! "p" = Some 0 ∧
  pair_likes "p" "bob" (run (trace ++ [unlike]) fresh_state) = 0%nat.
Proof. by vm_compute. Qed.



(** After the first signup on a new deployment the accounts have their
    integrity. *)
Lemma accounts_invariant_witness :
  store_ok
    (signup demo_make_password demo_check_password demo_normalize_username demo_normalize_email
       (signup_request "carol" "carol@example.org" "c-secret" "c-secret") fresh_state).2.
Proof.
  apply (accounts_invariant demo_make_password demo_check_password demo_new_post_id
           demo_ProfileForm_is_valid demo_normalize_username demo_normalize_email
           demo_to_python fresh_state).
  - split; [by apply (bool_decide_unpack _); vm_compute|].
    intros uid. vm_compute. lia.
  - eapply rtc_l; [|apply rtc_refl].
    apply (step_request _ _ _ _ _ _ _ (signup _ _ _ _)). unfold views. set_solver.
Defined.

(** ** The further theorems at work on the fixtures *)

(** bob opens the feed: his Profile and alice's post. *)
Lemma index_renders_feed_witness :
  ∃ feed,
    index index_request demo_state =
      (Ok (Render "index.html"
             [("user_profile", CProfile 2 (Profile.mk 2 None "" "")); ("posts", CPosts feed)]),
       demo_state) ∧
    NoDup feed ∧
    ∀ post_id post, (post_id, post) ∈ feed ↔ posts demo_state !! post_id = Some post.
Proof.
  apply (index_renders_feed index_request demo_state 2%nat bob);
    first [by vm_compute | vm_compute; lia].
Defined.

Lemma index_without_profile_witness :
  index index_request no_profile_state = (Raise (DoesNotExist "Profile"), no_profile_state).
Proof.
  apply (index_without_profile index_request no_profile_state 2%nat bob);
    first [by vm_compute | vm_compute; lia].
Defined.

(** alice signs in on a client that has no session. *)
Lemma signin_opens_session_witness :
  ∃ s', signin demo_check_password (signin_request "alice" "a-secret") anonymous_state =
          (Ok (Redirect "/"), s') ∧
        session s' = Some 1%nat ∧ request_user s' = Some (1%nat, alice) ∧
        users s' = users anonymous_state ∧ profiles s' = profiles anonymous_state ∧
        posts s' = posts anonymous_state ∧ likes s' = likes anonymous_state ∧
        messages s' = messages anonymous_state.
Proof.
  apply (signin_opens_session demo_check_password (signin_request "alice" "a-secret")
           anonymous_state "alice" "a-secret" 1%nat alice);
    first [by vm_compute | vm_compute; lia].
Defined.

(** A wrong password for alice, on the client where bob is signed in: bob
    stays signed in. *)
Lemma signin_rejects_witness :
  ∃ s', signin demo_check_password (signin_request "alice" "guess") demo_state =
          (Ok (Redirect "/signin"), s') ∧
        messages s' = (messages demo_state ++ ["Credentials Invalid"])%list ∧
        session s' = session demo_state ∧
        users s' = users demo_state ∧ profiles s' = profiles demo_state ∧
        posts s' = posts demo_state ∧ likes s' = likes demo_state.
Proof.
  apply (signin_rejects demo_check_password (signin_request "alice" "guess")
           demo_state "alice" "guess"); try by vm_compute.
  right. exists 1%nat, alice. split_and!; first [by vm_compute | vm_compute; lia].
Defined.

(** A signup submission without its email. *)
Lemma missing_field_raises_witness :
  signup demo_make_password demo_check_password demo_normalize_username demo_normalize_email
    (mkRequest "POST" "/signup" ∅ {[ "username" := "dave"; "password" := "d" ]} ∅) demo_state =
    (Raise (MultiValueDictKeyError "email"), demo_state).
Proof.
  destruct (missing_field_raises demo_make_password demo_check_password
              demo_normalize_username demo_normalize_email
              (mkRequest "POST" "/signup" ∅ {[ "username" := "dave"; "password" := "d" ]} ∅)
              demo_state ["username"] "email" ["password"; "password2"])
    as [Hsignup _].
  - done.
  - intros k ->%list_elem_of_singleton. vm_compute. by eexists.
  - by vm_compute.
  - by apply Hsignup.
Defined.

Lemma signup_logout_signin_witness :
  ∃ uid s1 s2,
    signup demo_make_password demo_check_password demo_normalize_username demo_normalize_email
      (signup_request "carol" "carol@EXAMPLE.org" "c-secret" "c-secret") demo_state =
      (Ok (Redirect "settings"), s1) ∧
    request_user s1 =
      Some (uid, User.mk "carol" (demo_normalize_email "carol@EXAMPLE.org")
                   (demo_make_password "c-secret")) ∧
    logout logout_request s1 = (Ok (Redirect "signin"), s2) ∧
    request_user s2 = None ∧
    signin demo_check_password (signin_request "carol" "c-secret") s2 =
      (Ok (Redirect "/"), s1).
Proof.
  apply (signup_logout_signin demo_make_password demo_check_password
           demo_normalize_username demo_normalize_email
           (signup_request "carol" "carol@EXAMPLE.org" "c-secret" "c-secret")
           logout_request (signin_request "carol" "c-secret") demo_state
           "carol" "carol@EXAMPLE.org" "c-secret"); try by vm_compute.
  by apply (bool_decide_unpack _); vm_compute.
Defined.

(** carol signs up with an address whose domain is in upper case; the
    account holds the address in lower case, so the same submission again is
    stopped by the username, not by the email. *)
Lemma signup_not_repeatable_witness :
  ∃ s1,
    signup demo_make_password demo_check_password demo_normalize_username demo_normalize_email
      (signup_request "carol" "carol@EXAMPLE.org" "c-secret" "c-secret") demo_state =
      (Ok (Redirect "settings"), s1) ∧
    (demo_normalize_email "carol@EXAMPLE.org" = "carol@EXAMPLE.org" →
     signup_fails demo_make_password demo_check_password demo_normalize_username
       demo_normalize_email
       (signup_request "carol" "carol@EXAMPLE.org" "c-secret" "c-secret") s1 DuplicateEmail) ∧
    signup_fails demo_make_password demo_check_password demo_normalize_username
      demo_normalize_email
      (signup_request "carol" "carol@EXAMPLE.org" "c-secret" "c-secret") s1 DuplicateUsername.
Proof.
  apply (signup_not_repeatable demo_make_password demo_check_password
           demo_normalize_username demo_normalize_email
           (signup_request "carol" "carol@EXAMPLE.org" "c-secret" "c-secret")
           (signup_request "carol" "carol@EXAMPLE.org" "c-secret" "c-secret") demo_state
           "carol" "carol@EXAMPLE.org" "carol@EXAMPLE.org" "c-secret" "c-secret");
    try by vm_compute.
  by apply (bool_decide_unpack _); vm_compute.
Defined.

Lemma usernames_unique_invariant_witness :
  usernames_unique
    (run (example_trace demo_make_password demo_check_password demo_new_post_id
            demo_normalize_username demo_normalize_email demo_to_python) fresh_state).
Proof.
  apply (usernames_unique_invariant demo_make_password demo_check_password demo_new_post_id
           demo_ProfileForm_is_valid demo_normalize_username demo_normalize_email
           demo_to_python fresh_state).
  - intros ?; vm_compute; lia.
  - apply run_reachable. unfold example_trace, views.
    repeat (apply Forall_cons; split; [simpl; set_solver|]). apply Forall_nil_2.
Defined.

(** bob's like leaves alice, bob and what alice uploaded as they were. *)
Lemma accounts_and_uploads_stay_witness :
  grows demo_state (like_post demo_to_python (like_request "p") demo_state).2.
Proof.
  apply (accounts_and_uploads_stay demo_make_password demo_check_password demo_new_post_id
           demo_ProfileForm_is_valid demo_normalize_username demo_normalize_email
           demo_to_python demo_state).
  eapply rtc_l; [|apply rtc_refl].
  apply (step_request _ _ _ _ _ _ _ (like_post _)). unfold views. set_solver.
Defined.

(** bob writes his bio; then he sends a location that is too long, and the
    page shows the bio he sent with it, though nothing is saved. *)
Lemma settings_edits_own_profile_witness :
  (∃ s', settings demo_ProfileForm_is_valid
           (settings_request "POST" {[ "bio" := "hello"; "location" := "here" ]}) demo_state =
           (Ok (Redirect "settings"), s') ∧
         profiles s' = <[2%nat := Profile.mk 2 None "hello" "here"]> (profiles demo_state) ∧
         users s' = users demo_state ∧ posts s' = posts demo_state ∧
         likes s' = likes demo_state ∧ session s' = session demo_state ∧
         messages s' = messages demo_state) ∧
  settings demo_ProfileForm_is_valid
    (settings_request "POST"
       {[ "bio" := "hello"; "location" := string_of_length 101 ]}) demo_state =
    (Ok (Render "setting.html"
           [("user_profile", CProfile 2 (Profile.mk 2 None "hello" "")); ("form", CForm true)]),
     demo_state).
Proof.
  split.
  - destruct (settings_edits_own_profile demo_ProfileForm_is_valid
                (settings_request "POST" {[ "bio" := "hello"; "location" := "here" ]})
                demo_state 2%nat bob 2%nat (Profile.mk 2 None "" ""))
      as (_ & _ & Hsave); [first [by vm_compute | vm_compute; lia]..|].
    apply Hsave; by vm_compute.
  - destruct (settings_edits_own_profile demo_ProfileForm_is_valid
                (settings_request "POST"
                   {[ "bio" := "hello"; "location" := string_of_length 101 ]})
                demo_state 2%nat bob 2%nat (Profile.mk 2 None "" ""))
      as (_ & Hrejected & _); [first [by vm_compute | vm_compute; lia]..|].
    apply Hrejected; by vm_compute.
Defined.

(** bob submits a file without a caption. *)
Lemma upload_writes_nothing_witness :
  upload demo_new_post_id
    (mkRequest "POST" "/upload" ∅ ∅ {[ "image_upload" := "post_images/cat.png" ]}) demo_state =
    (Raise (MultiValueDictKeyError "caption"), demo_state).
Proof.
  destruct (upload_writes_nothing demo_new_post_id
              (mkRequest "POST" "/upload" ∅ ∅ {[ "image_upload" := "post_images/cat.png" ]})
              demo_state 2%nat bob) as [_ Hcaption]; [by vm_compute|].
  by apply Hcaption.
Defined.

Lemma ledger_sound_witness :
  let s := run (example_trace demo_make_password demo_check_password demo_new_post_id
                  demo_normalize_username demo_normalize_email demo_to_python) fresh_state in
  (∀ key post, posts s !! key = Some post → (0 ≤ Post.no_of_likes post)%Z) ∧
  (∀ pk like, likes s !! pk = Some like →
     ∃ key, demo_to_python (LikePost.post_id like) = Some key ∧ is_Some (posts s !! key)).
Proof.
  apply (ledger_sound demo_make_password demo_check_password demo_new_post_id
           demo_ProfileForm_is_valid demo_normalize_username demo_normalize_email
           demo_to_python fresh_state).
  - by apply (bool_decide_unpack _); vm_compute.
  - apply run_reachable. unfold example_trace, views.
    repeat (apply Forall_cons; split; [simpl; set_solver|]). apply Forall_nil_2.
Defined.

(** bob, who likes alice's post, unlikes it and likes it again. *)
Lemma unlike_like_roundtrip_witness :
  let liked := (like_post demo_to_python (like_request "p") demo_state).2 in
  ∃ s1 s2,
    like_post demo_to_python (like_request "p") liked = (Ok (Redirect "/"), s1) ∧
    pair_likes "p" "bob" s1 = 0%nat ∧
    like_post demo_to_python (like_request "p") s1 = (Ok (Redirect "/"), s2) ∧
    pair_likes "p" "bob" s2 = 1%nat ∧
    posts s2 = posts liked.
Proof.
  destruct (unlike_like_roundtrip demo_to_python (like_request "p")
              (like_post demo_to_python (like_request "p") demo_state).2 2%nat bob "p" "p"
              (Post.set_no_of_likes 1 hello_post))
    as (s1 & s2 & H1 & Hnone & _ & H2 & Hone & Hposts & _); [by vm_compute..|].
  by exists s1, s2.
Defined.
